(** * ServiceHub notification server: dispatch, replay and open tracking

    A shallow embedding of [src/server_db.js] and of the Mongoose schema
    [src/models/Notification.js].  The Express handlers are written as
    functions over an explicit [World]: the notification collection, the
    in-memory [clients] map, the bytes written to the SSE responses, the
    registered close listeners and the tracking callbacks that were
    attempted.  The behaviour of the environment (the clock, a stream
    write that throws, the outcome of the outbound HTTP call) is a
    parameter of the handlers.

    A handler that suspends on an [await] can be overtaken by other
    requests.  The events handler and the mark-opened handler are
    therefore also given stretch by stretch, from one suspension to the
    next ([get_events_begin], [get_events_resume], [mark_opened_find],
    [mark_opened_save], [mark_opened_post]); run back to back the
    stretches are the handler.  The identity cookie is a string as a rule,
    but cookie-parser also hands over parsed JSON: the queries are given
    for the cookie as parsed as well ([CookieValue]). *)

From Stdlib Require Import ZArith Lia.
From stdpp Require Import base option list strings gmap pretty sorting.

Open Scope string_scope.
Open Scope Z_scope.
Open Scope list_scope.

(** ** JavaScript values at the types of the schema *)

(** A field of a JSON body is either absent ([None]) or holds a value of
    the type the schema declares for it.  [!x] and [x || y] follow the
    JavaScript notion of truth: the empty string, the number zero,
    [false] and an absent field are all falsy. *)

(** A JavaScript number, as this program uses it.  The handlers never
    compute with a [userId]: they test it for truth and print it in a
    template literal.  A number is therefore kept as the text that
    [String(x)] gives for it: ["7"], ["-1.5"], ["1e+21"], and
    ["9007199254740992"] for the JSON literals 9007199254740992 and
    9007199254740993 alike, which are one number.  Numbers that print the
    same are the same number, but for the two zeros, which both print
    ["0"]; these and [NaN] are the falsy numbers. *)
Record JsNumber := mkJsNumber { number_text : string }.

(** The number of an integer that a double holds exactly (magnitude up to
    2^53): it prints as its decimal writing. *)
Definition js_int (z : Z) : JsNumber := mkJsNumber (pretty z).

Definition truthy_str (x : option string) : bool :=
  match x with
  | Some s => bool_decide (s ≠ "")
  | None => false
  end.

Definition truthy_num (x : option JsNumber) : bool :=
  match x with
  | Some z => bool_decide (number_text z ≠ "0" ∧ number_text z ≠ "NaN")
  | None => false
  end.

Definition truthy_bool (x : option bool) : bool :=
  match x with
  | Some b => b
  | None => false
  end.

(** [x || d] on strings. *)
Definition or_str (x : option string) (d : string) : string :=
  match x with
  | Some s => if bool_decide (s ≠ "") then s else d
  | None => d
  end.

(** [`${x}`] for a string field that may be [undefined]. *)
Definition template_str (x : option string) : string :=
  match x with
  | Some s => s
  | None => "undefined"
  end.

(** [`${x}`] for a number field that may be [undefined]. *)
Definition template_num (x : option JsNumber) : string :=
  match x with
  | Some z => number_text z
  | None => "undefined"
  end.

(** [x === "lit"] for a string field that may be [undefined]. *)
Definition strict_eq_str (x : option string) (lit : string) : bool :=
  match x with
  | Some s => bool_decide (s = lit)
  | None => false
  end.

(** ** Request bodies *)

(** One element of [targetUsers] that can be destructured: an object
    [{ email, userId, name }], each field of which may be missing. *)
Record TargetUser := mkTargetUser {
  tu_email : option string;
  tu_userId : option JsNumber;
  tu_name : option string
}.

(** The value found under [targetUsers]: nothing, something that is not
    an array, or an array.  An element of the array is [null] ([None]) or
    a value that can be destructured ([Some]): an object, or a number,
    string or boolean, which destructures like an object without the
    three fields. *)
Inductive TargetUsersField :=
| TargetsAbsent
| TargetsNotArray
| TargetsArray (l : list (option TargetUser)).

(** Originator metadata is passed through untouched; only its string
    entries are looked at (by the tracking payload). *)
Definition Fields := list (string * string).

Fixpoint field_lookup (k : string) (m : Fields) : option string :=
  match m with
  | [] => None
  | (k', v) :: m' => if bool_decide (k' = k) then Some v else field_lookup k m'
  end.

(** Body of [POST /api/notifications/receive]. *)
Record ReceiveBody := mkReceiveBody {
  rb_source : option string;
  rb_notificationId : option string;
  rb_title : option string;
  rb_content : option string;
  rb_priority : option string;
  rb_type : option string;
  rb_targetUsers : TargetUsersField;
  rb_metadata : Fields;
  rb_trackingEnabled : option bool;
  rb_trackingCallbackUrl : option string
}.

(** ** The notification document (models/Notification.js) *)

(** [metadata: { ...metadata, targetUser: { userId, name, email } }] *)
Record Metadata := mkMetadata {
  md_fields : Fields;
  md_targetUser : TargetUser
}.

Record Notification := mkNotification {
  notificationId : string;
  sourceNotificationId : option string;
  userEmail : string;
  userId : option JsNumber;
  source : string;
  title : string;
  content : string;
  priority : string;
  type_ : string;
  severity : string;
  read : bool;
  opened : bool;
  openedAt : option Z;
  metadata : Metadata;
  trackingEnabled : bool;
  trackingCallbackUrl : option string;
  timestamp : Z;
  createdAt : Z
}.

(** [openedAt] in a projection: the SSE payloads do not carry the key, the
    HTTP responses carry the stored value ([null] or a date). *)
Inductive OpenedAtField :=
| OpenedAtOmitted
| OpenedAtValue (t : option Z).

(** The object sent over the channel and returned by the queries. *)
Record Projection := mkProjection {
  p_id : string;
  p_notificationId : option string;
  p_source : string;
  p_title : string;
  p_content : string;
  p_priority : string;
  p_type : string;
  p_severity : string;
  p_timestamp : Z;
  p_read : bool;
  p_opened : bool;
  p_openedAt : OpenedAtField;
  p_metadata : Metadata;
  p_trackingEnabled : bool;
  p_trackingCallbackUrl : option string
}.

Definition sse_projection (n : Notification) : Projection :=
  {| p_id := notificationId n;
     p_notificationId := sourceNotificationId n;
     p_source := source n;
     p_title := title n;
     p_content := content n;
     p_priority := priority n;
     p_type := type_ n;
     p_severity := severity n;
     p_timestamp := timestamp n;
     p_read := read n;
     p_opened := opened n;
     p_openedAt := OpenedAtOmitted;
     p_metadata := metadata n;
     p_trackingEnabled := trackingEnabled n;
     p_trackingCallbackUrl := trackingCallbackUrl n |}.

Definition http_projection (n : Notification) : Projection :=
  {| p_id := notificationId n;
     p_notificationId := sourceNotificationId n;
     p_source := source n;
     p_title := title n;
     p_content := content n;
     p_priority := priority n;
     p_type := type_ n;
     p_severity := severity n;
     p_timestamp := timestamp n;
     p_read := read n;
     p_opened := opened n;
     p_openedAt := OpenedAtValue (openedAt n);
     p_metadata := metadata n;
     p_trackingEnabled := trackingEnabled n;
     p_trackingCallbackUrl := trackingCallbackUrl n |}.

(** ** The notification collection *)

(** Documents in insertion order.  [create] validates against the schema
    and enforces the unique index on [notificationId]. *)
Abbreviation Collection := (list Notification).

Inductive StoreError :=
| ValidationFailed
| DuplicateKey.

(** [enum: ['high', 'medium', 'low']] *)
Definition priority_enum (p : string) : bool :=
  bool_decide (p = "high") || bool_decide (p = "medium") || bool_decide (p = "low").

(** [enum: ['error', 'warning', 'info']] *)
Definition severity_enum (s : string) : bool :=
  bool_decide (s = "error") || bool_decide (s = "warning") || bool_decide (s = "info").

(** The [required] and [enum] validators of the schema. *)
Definition schema_valid (n : Notification) : bool :=
  bool_decide (notificationId n ≠ "")
  && bool_decide (is_Some (sourceNotificationId n))
  && bool_decide (userEmail n ≠ "")
  && bool_decide (title n ≠ "")
  && bool_decide (content n ≠ "")
  && priority_enum (priority n)
  && severity_enum (severity n).

Definition id_taken (id : string) (db : Collection) : bool :=
  bool_decide (id ∈ notificationId <$> db).

(** [Notification.create(doc)] *)
Definition create (n : Notification) (db : Collection) : StoreError + Collection :=
  if negb (schema_valid n) then inl ValidationFailed
  else if id_taken (notificationId n) db then inl DuplicateKey
  else inr (db ++ [n]).

(** [Notification.findOne({ notificationId, userEmail })]: the first
    matching document, with its position in the collection. *)
Fixpoint findOne_from (i : nat) (nid email : string) (db : Collection)
  : option (nat * Notification) :=
  match db with
  | [] => None
  | n :: db' =>
      if bool_decide (notificationId n = nid) && bool_decide (userEmail n = email)
      then Some (i, n)
      else findOne_from (S i) nid email db'
  end.

Definition findOne (nid email : string) (db : Collection) : option (nat * Notification) :=
  findOne_from 0 nid email db.

(** [.sort({ createdAt: -1 })] *)
Definition newer_first (a b : Notification) : Prop := createdAt b ≤ createdAt a.

Global Instance newer_first_dec a b : Decision (newer_first a b).
Proof. unfold newer_first. apply _. Defined.

Definition sort_createdAt_desc (l : list Notification) : list Notification :=
  merge_sort newer_first l.

(** [Notification.find({ userEmail: email, opened: false }).sort({ createdAt: -1 })] *)
Definition find_pending (email : string) (db : Collection) : list Notification :=
  sort_createdAt_desc
    (filter (λ n, userEmail n = email ∧ opened n = false) db).

(** [Notification.find({ userEmail: email }).sort({ createdAt: -1 })] *)
Definition find_by_user (email : string) (db : Collection) : list Notification :=
  sort_createdAt_desc (filter (λ n, userEmail n = email) db).

(** *** Cookies that are not strings *)

(** cookie-parser hands over a cookie whose text starts with [j:] as the
    parsed JSON value, and the handlers pass [req.cookies.userEmail] to
    the queries as it is.  Mongoose reads an object of query operators
    ([{"$ne": null}], [{"$gt": ""}], [{"$in": [...]}]) in the place of a
    value as a condition on the field.  Such a cookie is kept as the
    condition it puts on a stored [userEmail]. *)
Inductive CookieValue :=
| CookieText (s : string)
| CookieOperators (matches : string → bool).

(** [{"$ne": null}]: met by every stored [userEmail]. *)
Definition ne_null : CookieValue := CookieOperators (λ _, true).

(** [!email] for the cookie as parsed: an object is truthy. *)
Definition truthy_cookie (c : option CookieValue) : bool :=
  match c with
  | Some (CookieText s) => bool_decide (s ≠ "")
  | Some (CookieOperators _) => true
  | None => false
  end.

(** Does a stored [userEmail] meet the condition [{ userEmail: c }]? *)
Definition cookie_condition (c : CookieValue) (stored : string) : bool :=
  match c with
  | CookieText s => bool_decide (stored = s)
  | CookieOperators matches => matches stored
  end.

(** The two queries of the handlers, for the cookie as parsed. *)
Definition find_pending_where (c : CookieValue) (db : Collection) : list Notification :=
  sort_createdAt_desc
    (filter (λ n, cookie_condition c (userEmail n) = true ∧ opened n = false) db).

Definition find_by_user_where (c : CookieValue) (db : Collection) : list Notification :=
  sort_createdAt_desc (filter (λ n, cookie_condition c (userEmail n) = true) db).

(** [Notification.findOne({ notificationId, userEmail })], for the cookie
    as parsed. *)
Fixpoint findOne_where_from (i : nat) (nid : string) (c : CookieValue) (db : Collection)
  : option (nat * Notification) :=
  match db with
  | [] => None
  | n :: db' =>
      if bool_decide (notificationId n = nid) && cookie_condition c (userEmail n)
      then Some (i, n)
      else findOne_where_from (S i) nid c db'
  end.

Definition findOne_where (nid : string) (c : CookieValue) (db : Collection)
  : option (nat * Notification) :=
  findOne_where_from 0 nid c db.

(** ** The process state *)

(** An SSE response object; two objects are the same object exactly when
    their numbers agree. *)
Definition Channel := nat.

(** What [res.write] sends: the handshake or one notification. *)
Inductive SseEvent :=
| EvConnected
| EvNotification (data : Projection).

(** Body of the tracking callback. *)
Record TrackingPayload := mkTrackingPayload {
  tp_notificationId : option string;
  tp_userId : JsNumber + string;
  tp_userEmail : string;
  tp_userName : string;
  tp_applicationId : option string;
  tp_applicationName : string;
  tp_openedAt : option Z
}.

(** One [axios.post] that was issued, with its outcome. *)
Record CallbackAttempt := mkCallbackAttempt {
  cb_url : string;
  cb_payload : TrackingPayload;
  cb_resolved : bool
}.

Record World := mkWorld {
  db : Collection;
  clients : gmap string Channel;
  wire : list (Channel * SseEvent);
  listeners : list (Channel * string);
  posts : list CallbackAttempt;
  ticks : nat
}.

Definition set_db (d : Collection) (w : World) : World :=
  mkWorld d (clients w) (wire w) (listeners w) (posts w) (ticks w).
Definition set_clients (c : gmap string Channel) (w : World) : World :=
  mkWorld (db w) c (wire w) (listeners w) (posts w) (ticks w).
Definition set_wire (x : list (Channel * SseEvent)) (w : World) : World :=
  mkWorld (db w) (clients w) x (listeners w) (posts w) (ticks w).
Definition set_listeners (x : list (Channel * string)) (w : World) : World :=
  mkWorld (db w) (clients w) (wire w) x (posts w) (ticks w).
Definition set_posts (x : list CallbackAttempt) (w : World) : World :=
  mkWorld (db w) (clients w) (wire w) (listeners w) x (ticks w).
Definition set_ticks (x : nat) (w : World) : World :=
  mkWorld (db w) (clients w) (wire w) (listeners w) (posts w) x.

(** A process that has just started: empty collection view, no client. *)
Definition boot : World := mkWorld [] ∅ [] [] [] 0%nat.

(** ** Results of a bulk dispatch *)

Inductive Failure :=
| StoreFailed (e : StoreError)
| WriteFailed.

Record SuccessEntry := mkSuccessEntry {
  se_email : string;
  se_userId : option JsNumber;
  se_name : option string;
  se_notificationId : string
}.

Record FailedEntry := mkFailedEntry {
  fe_email : option string;
  fe_userId : option (JsNumber + string);
  fe_name : option string;
  fe_reason : string;
  fe_error : option Failure
}.

Record Results := mkResults {
  success : list SuccessEntry;
  failed : list FailedEntry;
  total : nat
}.

Definition push_success (e : SuccessEntry) (r : Results) : Results :=
  mkResults (success r ++ [e]) (failed r) (total r).
Definition push_failed (e : FailedEntry) (r : Results) : Results :=
  mkResults (success r) (failed r ++ [e]) (total r).

(** Answers of [POST /api/notifications/receive]: the validation error,
    [{ success: true, clientsNotified, results }], or the answer of the
    handler's [catch], [{ success: false, error }]. *)
Inductive ReceiveResponse :=
| Receive400 (error : string)
| Receive200 (clientsNotified : nat) (results : Results)
| Receive500 (error : string).

(** Outcomes of [GET /api/events]: not authenticated, an error caught
    while the stream was set up, or the stream left open. *)
Inductive EventsResponse :=
| Events401
| Events500
| EventsOpen.

(** Answers of [POST /api/notifications/mark-opened]: not authenticated,
    no id in the body, no such record, [{ success: true, message:
    "Already marked as opened" }], or [{ success: true, notification }]. *)
Inductive MarkOpenedResponse :=
| Mark401
| Mark400
| Mark404
| MarkAlready
| MarkOpened (notification : Projection).

(** Answers of [GET /api/notifications]. *)
Inductive ListResponse :=
| List401
| List200 (notifications : list Projection) (count unreadCount : nat).

(** ** Building the per-user document *)

(** [userId || email] inside the template literal. *)
Definition recipient_key (uid : option JsNumber) (email : string) : string :=
  if truthy_num uid then template_num uid else email.

(** [`${notificationId}-${userId || email}`] *)
Definition derive_notificationId (nid : option string) (uid : option JsNumber)
    (email : string) : string :=
  template_str nid +:+ "-" +:+ recipient_key uid email.

(** [priority === "high" ? "error" : priority === "medium" ? "warning" : "info"] *)
Definition derive_severity (p : option string) : string :=
  if strict_eq_str p "high" then "error"
  else if strict_eq_str p "medium" then "warning"
  else "info".

(** The object literal [userNotification], completed by the schema
    defaults ([openedAt: null], [createdAt: Date.now]). *)
Definition userNotification (b : ReceiveBody) (t : TargetUser) (email : string)
    (now created : Z) : Notification :=
  {| notificationId := derive_notificationId (rb_notificationId b) (tu_userId t) email;
     sourceNotificationId := rb_notificationId b;
     userEmail := email;
     userId := tu_userId t;
     source := or_str (rb_source b) "PM_INTERFACE";
     title := default "" (rb_title b);
     content := default "" (rb_content b);
     priority := or_str (rb_priority b) "medium";
     type_ := or_str (rb_type b) "release_notes";
     severity := derive_severity (rb_priority b);
     read := false;
     opened := false;
     openedAt := None;
     metadata := mkMetadata (rb_metadata b) (mkTargetUser (Some email) (tu_userId t) (tu_name t));
     trackingEnabled := truthy_bool (rb_trackingEnabled b);
     trackingCallbackUrl := rb_trackingCallbackUrl b;
     timestamp := now;
     createdAt := created |}.

(** [userId || "unknown"] *)
Definition userId_or_unknown (uid : option JsNumber) : JsNumber + string :=
  match uid with
  | Some z => if truthy_num uid then inl z else inr "unknown"
  | None => inr "unknown"
  end.

(** [metadata?.targetUser?.userId || userEmail] *)
Definition userId_or_email (uid : option JsNumber) (email : string) : JsNumber + string :=
  match uid with
  | Some z => if truthy_num uid then inl z else inr email
  | None => inr email
  end.

Definition trackingPayload (n : Notification) (email : string) : TrackingPayload :=
  {| tp_notificationId := sourceNotificationId n;
     tp_userId := userId_or_email (tu_userId (md_targetUser (metadata n))) email;
     tp_userEmail := email;
     tp_userName := or_str (tu_name (md_targetUser (metadata n))) email;
     tp_applicationId := field_lookup "applicationId" (md_fields (metadata n));
     tp_applicationName :=
       or_str (field_lookup "applicationName" (md_fields (metadata n))) "ServiceHub";
     tp_openedAt := openedAt n |}.

(** [notification.read = true; notification.opened = true;
     notification.openedAt = new Date()] *)
Definition open_notification (now : Z) (n : Notification) : Notification :=
  {| notificationId := notificationId n;
     sourceNotificationId := sourceNotificationId n;
     userEmail := userEmail n;
     userId := userId n;
     source := source n;
     title := title n;
     content := content n;
     priority := priority n;
     type_ := type_ n;
     severity := severity n;
     read := true;
     opened := true;
     openedAt := Some now;
     metadata := metadata n;
     trackingEnabled := trackingEnabled n;
     trackingCallbackUrl := trackingCallbackUrl n;
     timestamp := timestamp n;
     createdAt := createdAt n |}.

(** ** The handlers *)

Section Handlers.

(** The environment: the value of the n-th reading of the clock,
    whether a write of an event to a response throws, and whether the
    outbound POST resolves (as opposed to failing or timing out). *)
Variable clock : nat → Z.
Variable write_throws : Channel → SseEvent → bool.
Variable post_resolves : string → TrackingPayload → bool.

(** *** GET /api/events *)

(** [pendingNotifications.forEach(n => res.write(...))]; the flag tells
    whether the loop ran to its end. *)
Fixpoint write_each (res : Channel) (evs : list SseEvent)
    (out : list (Channel * SseEvent)) : list (Channel * SseEvent) * bool :=
  match evs with
  | [] => (out, true)
  | e :: evs' =>
      if write_throws res e then (out, false)
      else write_each res evs' (out ++ [(res, e)])
  end.

Definition replay_events (email : string) (d : Collection) : list SseEvent :=
  (λ n, EvNotification (sse_projection n)) <$> find_pending email d.

(** The handler for a cookie that is absent or a string, run from its
    first line to its last with nothing in between. *)
Definition get_events (cookie : option string) (res : Channel) (w : World)
  : World * EventsResponse :=
  if negb (truthy_str cookie) then (w, Events401)
  else
    let email := default "" cookie in
    if write_throws res EvConnected then (w, Events500)
    else
      let w1 := set_wire (wire w ++ [(res, EvConnected)]) w in
      let w2 := set_clients (<[email := res]> (clients w1)) w1 in
      let '(out, finished) := write_each res (replay_events email (db w2)) (wire w2) in
      let w3 := set_wire out w2 in
      if finished
      then (set_listeners (listeners w3 ++ [(res, email)]) w3, EventsOpen)
      else (w3, Events500).

(** The handler runs in two stretches, before and after
    [await Notification.find(...)]; other requests, and the close of this
    very connection, can be served in between.  [get_events_begin] is the
    first stretch: it ends with an answer, or suspended on the query
    ([None]) with the handshake written and the connection stored. *)
Definition get_events_begin (cookie : option string) (res : Channel) (w : World)
  : World * option EventsResponse :=
  if negb (truthy_str cookie) then (w, Some Events401)
  else
    let email := default "" cookie in
    if write_throws res EvConnected then (w, Some Events500)
    else
      let w1 := set_wire (wire w ++ [(res, EvConnected)]) w in
      (set_clients (<[email := res]> (clients w1)) w1, None).

(** The second stretch: the replay of what the query returns, then the
    registration of the close listener. *)
Definition get_events_resume (email : string) (res : Channel) (w : World)
  : World * EventsResponse :=
  let '(out, finished) := write_each res (replay_events email (db w)) (wire w) in
  let w3 := set_wire out w in
  if finished
  then (set_listeners (listeners w3 ++ [(res, email)]) w3, EventsOpen)
  else (w3, Events500).

(** The replay for the cookie as parsed (the query and the [forEach]). *)
Definition replay_events_where (c : CookieValue) (d : Collection) : list SseEvent :=
  (λ n, EvNotification (sse_projection n)) <$> find_pending_where c d.

(** The listener registered by [req.on("close", ...)]. *)
Definition on_close (email : string) (w : World) : World :=
  set_clients (delete email (clients w)) w.

(** The connection behind [res] closes: its listeners run, once. *)
Definition req_close (res : Channel) (w : World) : World :=
  let mine := filter (λ l, l.1 = res) (listeners w) in
  let rest := filter (λ l, l.1 ≠ res) (listeners w) in
  set_listeners rest (foldl (λ w' l, on_close l.2 w') w mine).

(** *** POST /api/notifications/receive *)

(** One turn of [for (const targetUser of targetUsers)]. *)
Definition process_target (b : ReceiveBody) (acc : World * Results)
    (targetUser : TargetUser) : World * Results :=
  let '(w, results) := acc in
  if negb (truthy_str (tu_email targetUser)) then
    (w, push_failed
          {| fe_email := None;
             fe_userId := Some (userId_or_unknown (tu_userId targetUser));
             fe_name := Some (or_str (tu_name targetUser) "unknown");
             fe_reason := "Missing email";
             fe_error := None |} results)
  else
    let email := default "" (tu_email targetUser) in
    let un := userNotification b targetUser email
                (clock (ticks w)) (clock (S (ticks w))) in
    let w := set_ticks (S (S (ticks w))) w in
    match create un (db w) with
    | inl e =>
        (w, push_failed
              {| fe_email := Some email;
                 fe_userId := inl <$> tu_userId targetUser;
                 fe_name := tu_name targetUser;
                 fe_reason := "Failed to store/send notification";
                 fe_error := Some (StoreFailed e) |} results)
    | inr d =>
        let w := set_db d w in
        match clients w !! email with
        | None =>
            (w, push_failed
                  {| fe_email := Some email;
                     fe_userId := inl <$> tu_userId targetUser;
                     fe_name := tu_name targetUser;
                     fe_reason := "User not connected (notification stored for later)";
                     fe_error := None |} results)
        | Some clientRes =>
            let ev := EvNotification (sse_projection un) in
            if write_throws clientRes ev then
              (w, push_failed
                    {| fe_email := Some email;
                       fe_userId := inl <$> tu_userId targetUser;
                       fe_name := tu_name targetUser;
                       fe_reason := "Failed to store/send notification";
                       fe_error := Some WriteFailed |} results)
            else
              (set_wire (wire w ++ [(clientRes, ev)]) w,
               push_success
                 {| se_email := email;
                    se_userId := tu_userId targetUser;
                    se_name := tu_name targetUser;
                    se_notificationId := notificationId un |} results)
        end
    end.

(** [for (const targetUser of targetUsers) { const { email, userId, name }
    = targetUser; ... }]: the elements are taken in order.  On [null] the
    destructuring at the top of the body throws; it stands outside the
    [try] of the body, so the loop is left for the [catch] of the handler
    with what was done so far ([None] for the results). *)
Fixpoint process_targets_from (b : ReceiveBody) (targetUsers : list (option TargetUser))
    (acc : World * Results) : World * option Results :=
  match targetUsers with
  | [] => (acc.1, Some acc.2)
  | None :: _ => (acc.1, None)
  | Some targetUser :: rest =>
      process_targets_from b rest (process_target b acc targetUser)
  end.

Definition process_targets (b : ReceiveBody) (targetUsers : list (option TargetUser))
    (w : World) : World * option Results :=
  process_targets_from b targetUsers (w, mkResults [] [] (length targetUsers)).

Definition receive (b : ReceiveBody) (w : World) : World * ReceiveResponse :=
  match rb_targetUsers b with
  | TargetsAbsent | TargetsNotArray | TargetsArray [] =>
      (w, Receive400 "targetUsers array is required and cannot be empty")
  | TargetsArray targetUsers =>
      if negb (truthy_str (rb_title b)) || negb (truthy_str (rb_content b))
      then (w, Receive400 "title and content are required")
      else
        match process_targets b targetUsers w with
        | (w', Some results) =>
            (w', Receive200 (length (success results)) results)
        | (w', None) =>
            (w', Receive500
                   "Cannot destructure property 'email' of 'targetUser' as it is null.")
        end
  end.

(** *** POST /api/notifications/mark-opened *)

(** The handler for a cookie and a body id that are absent or strings,
    run from its first line to its last with nothing in between. *)
Definition mark_opened (cookie body_notificationId : option string) (w : World)
  : World * MarkOpenedResponse :=
  if negb (truthy_str cookie) then (w, Mark401)
  else if negb (truthy_str body_notificationId) then (w, Mark400)
  else
    let userEmail := default "" cookie in
    match findOne (default "" body_notificationId) userEmail (db w) with
    | None => (w, Mark404)
    | Some (i, notification) =>
        if opened notification then (w, MarkAlready)
        else
          let notification := open_notification (clock (ticks w)) notification in
          let w := set_ticks (S (ticks w)) (set_db (<[i := notification]> (db w)) w) in
          let w :=
            if trackingEnabled notification
               && truthy_str (trackingCallbackUrl notification)
            then
              let url := default "" (trackingCallbackUrl notification) in
              let payload := trackingPayload notification userEmail in
              set_posts
                (posts w ++ [mkCallbackAttempt url payload (post_resolves url payload)]) w
            else w in
          (w, MarkOpened (http_projection notification))
    end.

(** The handler suspends three times: on [await Notification.findOne],
    on [await notification.save()] and on [await axios.post].  A call
    that has not answered yet is at one of these points: it holds the
    document the query returned, or the document it stamped and saved. *)
Inductive MarkOpenedCall :=
| CallAnswered (response : MarkOpenedResponse)
| CallFound (userEmail : string) (i : nat) (notification : Notification)
| CallSaved (userEmail : string) (notification : Notification).

(** From the first line to the result of [findOne]. *)
Definition mark_opened_find (cookie body_notificationId : option string) (w : World)
  : MarkOpenedCall :=
  if negb (truthy_str cookie) then CallAnswered Mark401
  else if negb (truthy_str body_notificationId) then CallAnswered Mark400
  else
    let userEmail := default "" cookie in
    match findOne (default "" body_notificationId) userEmail (db w) with
    | None => CallAnswered Mark404
    | Some (i, notification) => CallFound userEmail i notification
    end.

(** From the result of [findOne] to the end of [save]: the guard looks
    at the document the query returned; [save] writes the paths that were
    set, [read], [opened] and [openedAt], to the stored document. *)
Definition mark_opened_save (c : MarkOpenedCall) (w : World) : World * MarkOpenedCall :=
  match c with
  | CallFound userEmail i notification =>
      if opened notification then (w, CallAnswered MarkAlready)
      else
        let now := clock (ticks w) in
        (set_ticks (S (ticks w)) (set_db (alter (open_notification now) i (db w)) w),
         CallSaved userEmail (open_notification now notification))
  | _ => (w, c)
  end.

(** From the end of [save] to the answer: the tracking callback, whose
    outcome is swallowed, and the projection of the document in hand. *)
Definition mark_opened_post (c : MarkOpenedCall) (w : World) : World * MarkOpenedCall :=
  match c with
  | CallSaved userEmail notification =>
      let w :=
        if trackingEnabled notification
           && truthy_str (trackingCallbackUrl notification)
        then
          let url := default "" (trackingCallbackUrl notification) in
          let payload := trackingPayload notification userEmail in
          set_posts
            (posts w ++ [mkCallbackAttempt url payload (post_resolves url payload)]) w
        else w in
      (w, CallAnswered (MarkOpened (http_projection notification)))
  | _ => (w, c)
  end.

(** *** GET /api/notifications *)

(** The handler for a cookie that is absent or a string. *)
Definition get_notifications (cookie : option string) (w : World) : ListResponse :=
  if negb (truthy_str cookie) then List401
  else
    let transformedNotifications :=
      http_projection <$> find_by_user (default "" cookie) (db w) in
    List200 transformedNotifications
      (length transformedNotifications)
      (length (filter (λ p, p_read p = false) transformedNotifications)).

(** The handler for the cookie as parsed. *)
Definition get_notifications_where (cookie : option CookieValue) (w : World)
  : ListResponse :=
  match cookie with
  | Some c =>
      if negb (truthy_cookie cookie) then List401
      else
        let transformedNotifications :=
          http_projection <$> find_by_user_where c (db w) in
        List200 transformedNotifications
          (length transformedNotifications)
          (length (filter (λ p, p_read p = false) transformedNotifications))
  | None => List401
  end.

(** *** Runs of the server *)

Inductive Request :=
| ReqEvents (cookie : option string) (res : Channel)
| ReqClose (res : Channel)
| ReqReceive (body : ReceiveBody)
| ReqMarkOpened (cookie body_notificationId : option string)
| ReqList (cookie : option string).

Definition handle (w : World) (r : Request) : World :=
  match r with
  | ReqEvents cookie res => (get_events cookie res w).1
  | ReqClose res => req_close res w
  | ReqReceive body => (receive body w).1
  | ReqMarkOpened cookie nid => (mark_opened cookie nid w).1
  | ReqList _ => w
  end.

Definition serve (rs : list Request) (w : World) : World := foldl handle w rs.

End Handlers.

(** ** Vocabulary of the statements *)

(** The entry of the response that stands for one target. *)
Definition Outcome : Type := SuccessEntry + FailedEntry.

Definition delivered_entry (o : Outcome) : option SuccessEntry :=
  match o with
  | inl e => Some e
  | inr _ => None
  end.

Definition failed_entry (o : Outcome) : option FailedEntry :=
  match o with
  | inl _ => None
  | inr f => Some f
  end.

(** [o] is an entry for the target [t]: a delivered entry names the
    target's identity, and a failed entry is the "Missing email" one
    exactly when the target has no identity. *)
Definition outcome_for (t : TargetUser) (o : Outcome) : Prop :=
  match o with
  | inl e =>
      tu_email t = Some (se_email e) ∧ se_email e ≠ ""
      ∧ se_userId e = tu_userId t ∧ se_name e = tu_name t
  | inr f =>
      if truthy_str (tu_email t)
      then fe_email f = tu_email t ∧ fe_reason f ≠ "Missing email"
      else fe_email f = None ∧ fe_reason f = "Missing email"
  end.


(** Invariants of the collection. *)
Definition unique_ids (d : Collection) : Prop := NoDup (notificationId <$> d).
Definition read_is_opened (d : Collection) : Prop := Forall (λ n, read n = opened n) d.

(** A batch whose shared fields pass the schema: it carries a source id
    and its priority, once defaulted, is one of the three levels. *)
Definition batch_storable (b : ReceiveBody) : Prop :=
  is_Some (rb_notificationId b)
  ∧ truthy_str (rb_title b) = true
  ∧ truthy_str (rb_content b) = true
  ∧ priority_enum (or_str (rb_priority b) "medium") = true.

(** What a handler can do to the collection: insert a fresh, unread
    document, or open one that was not opened yet. *)
Inductive db_step : relation Collection :=
| db_create d n :
    read n = false → opened n = false → openedAt n = None →
    notificationId n ∉ notificationId <$> d →
    db_step d (d ++ [n])
| db_open d i n now :
    d !! i = Some n → opened n = false →
    db_step d (<[i := open_notification now n]> d).

(** Sample environments and requests. *)
Definition clock_ms (n : nat) : Z := 1000 + Z.of_nat n.
Definition never_throws (_ : Channel) (_ : SseEvent) : bool := false.
Definition always_resolves (_ : string) (_ : TrackingPayload) : bool := true.
Definition always_rejects (_ : string) (_ : TrackingPayload) : bool := false.

Definition target (email : string) : TargetUser :=
  mkTargetUser (Some email) None None.
Definition target_id (email : string) (uid : Z) : TargetUser :=
  mkTargetUser (Some email) (Some (js_int uid)) None.

Definition batch (nid : string) (prio : option string) (ts : list TargetUser) : ReceiveBody :=
  mkReceiveBody None (Some nid) (Some "T") (Some "C") prio None
    (TargetsArray (Some <$> ts)) [] None None.

Definition tracked_batch (nid url : string) (ts : list TargetUser) : ReceiveBody :=
  mkReceiveBody None (Some nid) (Some "T") (Some "C") None None
    (TargetsArray (Some <$> ts)) [] (Some true) (Some url).

(** A tracked batch for one offline recipient, the document it stores
    and the state it leaves when sent to a fresh process. *)
Definition sample_batch : ReceiveBody :=
  tracked_batch "rel-1" "http://pm/opened" [target "a@x"].

Definition sample_record : Notification :=
  userNotification sample_batch (target "a@x") "a@x" (clock_ms 0) (clock_ms 1).

Definition sample_world : World :=
  (receive clock_ms never_throws sample_batch boot).1.

(** A batch whose second element is [null]:
    [targetUsers: [{email: "a@x"}, null, {email: "b@x"}]]. *)
Definition null_batch : ReceiveBody :=
  mkReceiveBody None (Some "rel-1") (Some "T") (Some "C") None None
    (TargetsArray [Some (target "a@x"); None; Some (target "b@x")]) [] None None.

(** A batch for two recipients, the first of which is connected. *)
Definition pair_batch : ReceiveBody :=
  batch "rel-1" None [target "a@x"; target "b@x"].

Definition pair_world : World :=
  (get_events never_throws (Some "a@x") 1%nat boot).1.

Definition pair_results : Results :=
  {| success := [mkSuccessEntry "a@x" None None "rel-1-a@x"];
     failed := [mkFailedEntry (Some "b@x") None None
                  "User not connected (notification stored for later)" None];
     total := 2 |}.

(** Two releases stored for an offline recipient, one of them opened. *)
Definition backlog : list Request :=
  [ReqReceive (batch "rel-1" None [target "a@x"; target "b@x"]);
   ReqReceive (batch "rel-2" (Some "high") [target "a@x"]);
   ReqReceive (batch "rel-3" (Some "low") [target "a@x"]);
   ReqMarkOpened (Some "a@x") (Some "rel-2-a@x")].

(** ** Sessions: login, logout, current user *)

(** A document of the users collection.  [models/User.js] is not among
    the sources; the record has the fields the handlers query
    ([email], [password]) and return ([userId], [email], [name]). *)
Record User := mkUser {
  u_userId : option Z;
  u_email : string;
  u_name : string;
  u_password : string
}.

(** [{ userId, email, name }] *)
Record Profile := mkProfile {
  pr_userId : option Z;
  pr_email : string;
  pr_name : string
}.

Definition profile (u : User) : Profile :=
  mkProfile (u_userId u) (u_email u) (u_name u).


(** [User.findOne({ email })] *)
Fixpoint find_user_by_email (email : string) (users : list User) : option User :=
  match users with
  | [] => None
  | u :: users' =>
      if bool_decide (u_email u = email) then Some u
      else find_user_by_email email users'
  end.


Inductive MeResponse :=
| Me401NotAuthenticated
| Me401UserNotFound
| Me200 (user : Profile).



(** [GET /api/auth/me] *)
Definition get_me (users : list User) (cookie : option string) : MeResponse :=
  if negb (truthy_str cookie) then Me401NotAuthenticated
  else
    match find_user_by_email (default "" cookie) users with
    | None => Me401UserNotFound
    | Some user => Me200 (profile user)
    end.

(** ** Health check *)

(** [{ status: "healthy", connectedClients: clients.size, timestamp }];
    the timestamp is kept as the instant read from the clock. *)
Record HealthResponse := mkHealthResponse {
  h_status : string;
  h_connectedClients : nat;
  h_timestamp : Z
}.

(** [GET /health] *)
Definition health (clock : nat → Z) (w : World) : World * HealthResponse :=
  (set_ticks (S (ticks w)) w,
   mkHealthResponse "healthy" (size (clients w)) (clock (ticks w))).

(** ** Further vocabulary *)

(** Every stored document passes the validators of the schema. *)
Definition valid_documents (d : Collection) : Prop :=
  Forall (λ n, schema_valid n = true) d.

(** How severity and priority of one document relate. *)
Definition severity_fits (n : Notification) : Prop :=
  (severity n = "error" ↔ priority n = "high")
  ∧ (severity n = "warning" → priority n = "medium")
  ∧ (priority n = "low" → severity n = "info").

(** The targets of a batch: the objects of its array, in order; none
    when there is no array. *)
Definition targets_of (b : ReceiveBody) : list TargetUser :=
  match rb_targetUsers b with
  | TargetsArray l => omap id l
  | _ => []
  end.

(** [n] is the document built for one of the targets [ts] of the batch. *)
Definition document_of (b : ReceiveBody) (ts : list TargetUser) (n : Notification) : Prop :=
  ∃ t email now created,
    t ∈ ts ∧ tu_email t = Some email ∧ email ≠ ""
    ∧ n = userNotification b t email now created.




(** The delivered entries name documents of [d], no id twice. *)
Definition delivered_stored (d : Collection) (es : list SuccessEntry) : Prop :=
  NoDup (se_notificationId <$> es)
  ∧ ∀ e, e ∈ es →
      ∃ n, n ∈ d ∧ notificationId n = se_notificationId e ∧ userEmail n = se_email e.

(** A stream on which the handshake goes through and every notification
    throws. *)
Definition throws_on_notifications (_ : Channel) (e : SseEvent) : bool :=
  match e with
  | EvConnected => false
  | EvNotification _ => true
  end.

(** The users of the sample runs. *)
Definition sample_users : list User :=
  [mkUser (Some 1) "a@x" "Ada" "pw-a"; mkUser (Some 2) "b@x" "Bob" "pw-b"].

(** * Properties *)

(** ** Every target of a batch gets one entry *)

Section Dispatch.

Variable clock : nat → Z.
Variable write_throws : Channel → SseEvent → bool.

Lemma outcome_split_length (os : list Outcome) :
  (length (omap delivered_entry os) + length (omap failed_entry os))%nat = length os.
Proof.
  induction os as [|[e|f] os IH]; csimpl; lia.
Qed.

(** One turn of the loop pushes exactly one entry, on one of the lists. *)
Lemma process_target_entry b w r t :
  ∃ o, outcome_for t o
    ∧ success (process_target clock write_throws b (w, r) t).2
      = success r ++ omap delivered_entry [o]
    ∧ failed (process_target clock write_throws b (w, r) t).2
      = failed r ++ omap failed_entry [o]
    ∧ total (process_target clock write_throws b (w, r) t).2 = total r
    ∧ length (wire (process_target clock write_throws b (w, r) t).1)
      = (length (wire w) + length (omap delivered_entry [o]))%nat.
Proof.
  unfold process_target.
  destruct (truthy_str (tu_email t)) eqn:He; simpl.
  - destruct (tu_email t) as [email|] eqn:Hem; [|discriminate].
    simpl in He. apply bool_decide_eq_true in He. simpl.
    destruct (create _ _) as [e|d]; simpl;
      [|destruct (clients _ !! email) as [ch|]; simpl;
        [destruct (write_throws ch _); simpl|]].
    3: { eexists (inl _). split; cycle 1.
         - simpl. rewrite app_nil_r, length_app. split_and!; reflexivity.
         - simpl. done. }
    all: eexists (inr _); split; cycle 1;
      [simpl; rewrite app_nil_r, Nat.add_0_r; split_and!; reflexivity|].
    all: simpl; rewrite Hem; simpl; rewrite bool_decide_eq_true_2 by done; done.
  - eexists (inr _). split; cycle 1.
    + simpl. rewrite app_nil_r, Nat.add_0_r. split_and!; reflexivity.
    + simpl. rewrite He. done.
Qed.

(** The entry goes on the delivered list exactly when the target has an
    identity, the store accepts its document, a channel is registered for
    the identity and the write on it does not throw. *)
Lemma process_target_delivered_iff b w r t :
  length (success (process_target clock write_throws b (w, r) t).2)
    = S (length (success r))
  ↔ ∃ email ch d,
      tu_email t = Some email ∧ email ≠ ""
      ∧ create (userNotification b t email (clock (ticks w)) (clock (S (ticks w)))) (db w)
        = inr d
      ∧ clients w !! email = Some ch
      ∧ write_throws ch
          (EvNotification
             (sse_projection
                (userNotification b t email (clock (ticks w)) (clock (S (ticks w))))))
        = false.
Proof.
  assert (∀ k : nat, k = S k → False) as Hnope by (clear; intros k Hk; lia).
  unfold process_target.
  destruct (tu_email t) as [email|] eqn:Hem; cbn [truthy_str negb];
    [|split; [by intros ?%Hnope|intros (? & ? & ? & [=] & _)]].
  case_bool_decide as He; cbn [negb default id];
    [|split; [by intros ?%Hnope
             |intros (? & ? & ? & [= <-] & Hne & _); by destruct Hne]].
  cbn [db set_ticks clients].
  destruct (create _ (db w)) as [e|d] eqn:Hc;
    [split; [by intros ?%Hnope
            |intros (? & ? & ? & [= <-] & _ & Hc' & _); congruence]|].
  cbn [clients set_db set_ticks].
  destruct (clients w !! email) as [ch|] eqn:Hch;
    [|split; [by intros ?%Hnope
             |intros (? & ? & ? & [= <-] & _ & _ & Hch' & _); congruence]].
  destruct (write_throws ch _) eqn:Hw.
  - split; [by intros ?%Hnope|].
    intros (? & ? & ? & [= <-] & _ & _ & Hch' & Hw'). congruence.
  - split; [|intros _; cbn; rewrite length_app; cbn; lia].
    intros _. exists email, ch, d. done.
Qed.

Lemma foldl_process_target_entries b ts : ∀ w r,
  ∃ os, Forall2 outcome_for ts os
    ∧ success (foldl (process_target clock write_throws b) (w, r) ts).2
      = success r ++ omap delivered_entry os
    ∧ failed (foldl (process_target clock write_throws b) (w, r) ts).2
      = failed r ++ omap failed_entry os
    ∧ total (foldl (process_target clock write_throws b) (w, r) ts).2 = total r
    ∧ length (wire (foldl (process_target clock write_throws b) (w, r) ts).1)
      = (length (wire w) + length (omap delivered_entry os))%nat.
Proof.
  induction ts as [|t ts IH]; intros w r.
  - exists []. simpl. rewrite !app_nil_r, Nat.add_0_r. repeat split; constructor.
  - cbn [foldl].
    destruct (process_target_entry b w r t) as (o & Ho & Hs & Hf & Ht & Hw).
    destruct (process_target clock write_throws b (w, r) t) as [w1 r1] eqn:Hstep.
    cbn [fst snd] in Hs, Hf, Ht, Hw.
    destruct (IH w1 r1) as (os & Hos & Hs' & Hf' & Ht' & Hw').
    exists (o :: os). split; [by constructor|].
    rewrite Hs', Hf', Ht', Hw', Hs, Hf, Ht, Hw.
    change (o :: os) with ([o] ++ os).
    rewrite !omap_app, !app_assoc, length_app, Nat.add_assoc. done.
Qed.

(** The loop over an array with [null] elements is the loop over the
    objects that come before the first [null]. *)
Lemma process_targets_from_cases b l : ∀ acc,
  (∃ ts, l = Some <$> ts
         ∧ process_targets_from clock write_throws b l acc
           = ((foldl (process_target clock write_throws b) acc ts).1,
              Some (foldl (process_target clock write_throws b) acc ts).2))
  ∨ (∃ ts rest, l = (Some <$> ts) ++ None :: rest
                ∧ process_targets_from clock write_throws b l acc
                  = ((foldl (process_target clock write_throws b) acc ts).1, None)).
Proof.
  induction l as [|[t|] l IH]; intros acc.
  - left. by exists [].
  - destruct (IH (process_target clock write_throws b acc t))
      as [(ts & -> & Heq)|(ts & rest & -> & Heq)].
    + left. by exists (t :: ts).
    + right. by exists (t :: ts), rest.
  - right. by exists [], l.
Qed.

Lemma omap_id_Some {A} (l : list A) : omap id (Some <$> l) = l.
Proof. induction l as [|x l IH]; [done|]. csimpl. by rewrite IH. Qed.

(** A 200 answer: every element was an object and the loop ran over all
    of them. *)
Lemma receive_200 b w w' k r :
  receive clock write_throws b w = (w', Receive200 k r) →
  ∃ ts, rb_targetUsers b = TargetsArray (Some <$> ts)
        ∧ foldl (process_target clock write_throws b)
            (w, mkResults [] [] (length ts)) ts = (w', r)
        ∧ k = length (success r).
Proof.
  unfold receive. intros H.
  destruct (rb_targetUsers b) as [| |l]; try discriminate.
  destruct l as [|o l]; [discriminate|].
  destruct (negb _ || negb _); [discriminate|].
  unfold process_targets in H.
  destruct (process_targets_from_cases b (o :: l)
              (w, mkResults [] [] (length (o :: l))))
    as [(ts & Hl & Heq)|(ts & rest & Hl & Heq)]; rewrite Heq in H; [|discriminate].
  assert (length (o :: l) = length ts) as Hlen by (by rewrite Hl, length_fmap).
  rewrite Hlen in H. injection H as <- <- <-. exists ts.
  split_and!; [by rewrite Hl| |done].
  clear. by destruct (foldl (process_target clock write_throws b) _ ts).
Qed.

(** In every case the state the handler leaves is the state of the loop
    run over some first targets of the batch. *)
Lemma receive_world b w :
  ∃ ts rest r0,
    targets_of b = ts ++ rest
    ∧ (receive clock write_throws b w).1
      = (foldl (process_target clock write_throws b) (w, r0) ts).1.
Proof.
  unfold receive, targets_of.
  destruct (rb_targetUsers b) as [| |l];
    try (by exists [], [], (mkResults [] [] 0)).
  destruct l as [|o l]; [by exists [], [], (mkResults [] [] 0)|].
  destruct (negb _ || negb _);
    [by exists [], (omap id (o :: l)), (mkResults [] [] 0)|].
  unfold process_targets.
  destruct (process_targets_from_cases b (o :: l)
              (w, mkResults [] [] (length (o :: l))))
    as [(ts & Hl & Heq)|(ts & rest & Hl & Heq)]; rewrite Heq, Hl.
  - exists ts, [], (mkResults [] [] (length (Some <$> ts))).
    rewrite app_nil_r. split; [|done]. apply omap_id_Some.
  - exists ts, (omap id rest), (mkResults [] [] (length ((Some <$> ts) ++ None :: rest))).
    split; [|done]. rewrite omap_app. f_equal. apply omap_id_Some.
Qed.


Lemma process_targets_from_null b before rest : ∀ acc,
  process_targets_from clock write_throws b ((Some <$> before) ++ None :: rest) acc
  = ((foldl (process_target clock write_throws b) acc before).1, None).
Proof. induction before as [|t before IH]; intros acc; [done|]. apply IH. Qed.

(** C1 (where the code departs from it).  The loop destructures its
    element before the [try] of its body, so a [null] element is not
    turned into a failed entry: it ends the loop in the [catch] of the
    handler.  A batch that passes the validation and holds a [null] after
    the objects [before] is answered 500, without [total] and without
    lists; the state is the one the loop left after [before], whose
    documents are stored and whose pushes are written, and the entries
    collected for them are lost with the answer.  The targets after the
    [null] are not looked at. *)
Theorem C1_null_target_aborts_batch b before rest w :
  rb_targetUsers b = TargetsArray ((Some <$> before) ++ None :: rest) →
  truthy_str (rb_title b) = true → truthy_str (rb_content b) = true →
  let out := foldl (process_target clock write_throws b)
               (w, mkResults [] [] (length ((Some <$> before) ++ None :: rest)))
               before in
  receive clock write_throws b w
  = (out.1,
     Receive500 "Cannot destructure property 'email' of 'targetUser' as it is null.")
  ∧ (length (success out.2) + length (failed out.2))%nat = length before
  ∧ (length before < total out.2)%nat.
Proof.
  intros Hts Ht Hc out. split_and!.
  - unfold receive. rewrite Hts, Ht, Hc. cbn [negb orb].
    unfold process_targets. rewrite process_targets_from_null. fold out.
    by destruct before.
  - destruct (foldl_process_target_entries b before w
                (mkResults [] [] (length ((Some <$> before) ++ None :: rest))))
      as (os & Hos & Hs & Hf & _).
    fold out in Hs, Hf. cbn [success failed app] in Hs, Hf.
    rewrite Hs, Hf, outcome_split_length.
    symmetry. by eapply Forall2_length.
  - destruct (foldl_process_target_entries b before w
                (mkResults [] [] (length ((Some <$> before) ++ None :: rest))))
      as (os & _ & _ & _ & Htot & _).
    fold out in Htot. rewrite Htot. cbn [total].
    rewrite length_app, length_fmap. cbn [length]. lia.
Qed.

End Dispatch.

(** ** The collection along a run *)

Section Store.

Lemma create_inr n d d' :
  create n d = inr d' →
  d' = d ++ [n] ∧ schema_valid n = true ∧ notificationId n ∉ notificationId <$> d.
Proof.
  unfold create, id_taken. intros H.
  destruct (schema_valid n); [|discriminate]. simpl in H.
  case_bool_decide; [discriminate|].
  by injection H as <-.
Qed.

Lemma create_taken n d :
  notificationId n ∈ notificationId <$> d → ∃ e, create n d = inl e.
Proof.
  intros Hin. unfold create, id_taken.
  destruct (schema_valid n); simpl; [|eauto].
  rewrite bool_decide_eq_true_2 by done. eauto.
Qed.

Lemma findOne_from_lookup nid email d : ∀ k i n,
  findOne_from k nid email d = Some (i, n) →
  (k ≤ i)%nat ∧ d !! (i - k)%nat = Some n
  ∧ notificationId n = nid ∧ userEmail n = email.
Proof.
  induction d as [|m d IH]; intros k i n H; [discriminate|].
  simpl in H.
  destruct (bool_decide (notificationId m = nid) && bool_decide (userEmail m = email)) eqn:Hm.
  - injection H as <- <-.
    apply andb_true_iff in Hm as [H1 H2].
    apply bool_decide_eq_true in H1, H2.
    rewrite Nat.sub_diag. split_and!; [lia|done..].
  - apply IH in H as (Hle & Hl & Hid & Hem).
    split_and!; [lia| |done..].
    replace (i - k)%nat with (S (i - S k)) by lia. done.
Qed.

Lemma findOne_lookup nid email d i n :
  findOne nid email d = Some (i, n) →
  d !! i = Some n ∧ notificationId n = nid ∧ userEmail n = email.
Proof.
  intros H. apply findOne_from_lookup in H as (_ & Hl & Hid & Hem).
  rewrite Nat.sub_0_r in Hl. done.
Qed.

Lemma ids_open (d : Collection) i n now :
  d !! i = Some n →
  notificationId <$> <[i := open_notification now n]> d = notificationId <$> d.
Proof.
  intros H. rewrite list_fmap_insert. apply list_insert_id.
  rewrite list_lookup_fmap, H. done.
Qed.

Lemma db_step_unique_ids d d' : db_step d d' → unique_ids d → unique_ids d'.
Proof.
  unfold unique_ids. destruct 1 as [d n _ _ _ Hfresh|d i n now Hi _]; intros Hd.
  - rewrite fmap_app. apply NoDup_app. split_and!; [done| |apply NoDup_singleton].
    intros x Hx. simpl. rewrite list_elem_of_singleton. by intros ->.
  - by rewrite ids_open.
Qed.

Lemma db_step_read_is_opened d d' : db_step d d' → read_is_opened d → read_is_opened d'.
Proof.
  unfold read_is_opened. destruct 1 as [d n Hr Ho _ _|d i n now Hi _]; intros Hd.
  - apply Forall_app. split; [done|]. constructor; [congruence|constructor].
  - by apply Forall_insert.
Qed.

(** An opened document is never touched again. *)
Lemma db_step_frozen (d d' : Collection) i n :
  db_step d d' → d !! i = Some n → opened n = true → d' !! i = Some n.
Proof.
  destruct 1 as [d m _ _ _ _|d j m now Hj Hm]; intros Hi Ho.
  - by apply lookup_app_l_Some.
  - destruct (decide (i = j)) as [->|Hne]; [congruence|].
    by rewrite list_lookup_insert_ne.
Qed.

Lemma rtc_db_step_unique_ids d d' : rtc db_step d d' → unique_ids d → unique_ids d'.
Proof. induction 1; eauto using db_step_unique_ids. Qed.

Lemma rtc_db_step_read_is_opened d d' :
  rtc db_step d d' → read_is_opened d → read_is_opened d'.
Proof. induction 1; eauto using db_step_read_is_opened. Qed.

Lemma rtc_db_step_frozen (d d' : Collection) i n :
  rtc db_step d d' → d !! i = Some n → opened n = true → d' !! i = Some n.
Proof. induction 1; eauto using db_step_frozen. Qed.

End Store.

(** ** What each handler does to the collection *)

Section Runs.

Variable clock : nat → Z.
Variable write_throws : Channel → SseEvent → bool.
Variable post_resolves : string → TrackingPayload → bool.

Lemma userNotification_unread b t email now created :
  read (userNotification b t email now created) = false
  ∧ opened (userNotification b t email now created) = false
  ∧ openedAt (userNotification b t email now created) = None.
Proof. done. Qed.

(** A turn of the dispatch loop leaves the collection alone or appends
    the document of its target, accepted by [create]. *)
Lemma process_target_db b w r t :
  db (process_target clock write_throws b (w, r) t).1 = db w
  ∨ ∃ email,
      tu_email t = Some email ∧ email ≠ ""
      ∧ create (userNotification b t email (clock (ticks w)) (clock (S (ticks w)))) (db w)
        = inr (db w ++ [userNotification b t email (clock (ticks w)) (clock (S (ticks w)))])
      ∧ db (process_target clock write_throws b (w, r) t).1
        = db w ++ [userNotification b t email (clock (ticks w)) (clock (S (ticks w)))].
Proof.
  unfold process_target.
  destruct (truthy_str (tu_email t)) eqn:He; cbn [negb]; [|by left].
  destruct (tu_email t) as [email|] eqn:Hem; [|discriminate].
  cbn in He. apply bool_decide_eq_true in He. cbn [default id].
  cbn [db set_ticks].
  destruct (create _ (db w)) as [e|d] eqn:Hc; [by left|].
  right. exists email.
  pose proof (create_inr _ _ _ Hc) as (-> & _ & _).
  split_and!; [done..|].
  cbn. destruct (clients w !! email) as [ch|]; [|done].
  by destruct (write_throws ch _).
Qed.

Lemma process_target_db_steps b w r t :
  rtc db_step (db w) (db (process_target clock write_throws b (w, r) t).1).
Proof.
  destruct (process_target_db b w r t) as [->|(email & _ & _ & Hc & ->)]; [done|].
  apply create_inr in Hc as (_ & _ & Hfresh).
  apply rtc_once. by constructor.
Qed.

Lemma foldl_process_target_db_steps b ts : ∀ w r,
  rtc db_step (db w) (db (foldl (process_target clock write_throws b) (w, r) ts).1).
Proof.
  induction ts as [|t ts IH]; intros w r; [done|].
  cbn [foldl].
  pose proof (process_target_db_steps b w r t) as Hstep.
  destruct (process_target clock write_throws b (w, r) t) as [w1 r1].
  etrans; [exact Hstep|apply IH].
Qed.

Lemma receive_db_steps b w :
  rtc db_step (db w) (db (receive clock write_throws b w).1).
Proof.
  destruct (receive_world clock write_throws b w) as (ts & rest & r0 & _ & ->).
  apply foldl_process_target_db_steps.
Qed.

(** [mark_opened] leaves the collection alone or opens, in place, the
    document it found unopened. *)
Lemma mark_opened_db cookie nid w :
  db (mark_opened clock post_resolves cookie nid w).1 = db w
  ∨ ∃ i n,
      findOne (default "" nid) (default "" cookie) (db w) = Some (i, n)
      ∧ opened n = false
      ∧ db (mark_opened clock post_resolves cookie nid w).1
        = <[i := open_notification (clock (ticks w)) n]> (db w).
Proof.
  unfold mark_opened.
  destruct (negb (truthy_str cookie)); [by left|].
  destruct (negb (truthy_str nid)); [by left|].
  destruct (findOne _ _ _) as [[i n]|] eqn:Hf; [|by left].
  destruct (opened n) eqn:Ho; [by left|].
  right. exists i, n. split_and!; [done..|].
  cbn. by destruct (trackingEnabled n && truthy_str (trackingCallbackUrl n)).
Qed.

Lemma mark_opened_db_steps cookie nid w :
  rtc db_step (db w) (db (mark_opened clock post_resolves cookie nid w).1).
Proof.
  destruct (mark_opened_db cookie nid w) as [->|(i & n & Hf & Ho & ->)]; [done|].
  apply findOne_lookup in Hf as (Hi & _ & _).
  apply rtc_once. by constructor.
Qed.

Lemma get_events_db cookie res w :
  db (get_events write_throws cookie res w).1 = db w.
Proof.
  unfold get_events.
  destruct (negb (truthy_str cookie)); [done|].
  destruct (write_throws res EvConnected); [done|].
  destruct (write_each _ _ _ _) as [out [|]]; done.
Qed.

Lemma foldl_on_close_db (ls : list (Channel * string)) : ∀ w,
  db (foldl (λ w' l, on_close l.2 w') w ls) = db w.
Proof. induction ls as [|l ls IH]; intros w; [done|]. cbn [foldl]. by rewrite IH. Qed.

Lemma req_close_db res w : db (req_close res w) = db w.
Proof. unfold req_close. cbn. apply foldl_on_close_db. Qed.

Lemma handle_db_steps w r :
  rtc db_step (db w) (db (handle clock write_throws post_resolves w r)).
Proof.
  destruct r as [cookie res|res|body|cookie nid|cookie]; cbn [handle].
  - by rewrite get_events_db.
  - by rewrite req_close_db.
  - apply receive_db_steps.
  - apply mark_opened_db_steps.
  - done.
Qed.

Lemma serve_db_steps rs : ∀ w,
  rtc db_step (db w) (db (serve clock write_throws post_resolves rs w)).
Proof.
  induction rs as [|r rs IH]; intros w; [done|].
  unfold serve. cbn [foldl].
  etrans; [apply (handle_db_steps w r)|apply IH].
Qed.

End Runs.

(** ** Priority and severity of a stored document *)

Section Severity.

Lemma derive_severity_levels :
  derive_severity (Some "high") = "error"
  ∧ derive_severity (Some "medium") = "warning"
  ∧ derive_severity (Some "low") = "info".
Proof. done. Qed.

(** Whoever supplies one of the three levels gets it stored unchanged. *)
Lemma userNotification_priority_supplied b t email now created p :
  rb_priority b = Some p → priority_enum p = true →
  priority (userNotification b t email now created) = p.
Proof.
  intros Hp He. cbn. rewrite Hp. cbn.
  case_bool_decide as Hne; [done|].
  subst p. discriminate He.
Qed.

(** C2.  When the batch carries no priority (or a falsy one), the
    document is built with priority "medium" and with severity "info":
    the severity is computed from the field as received, not from the
    defaulted priority, so it is not the "warning" that the mapping gives
    to "medium". *)
Theorem C2_omitted_priority_medium_info b t email now created :
  truthy_str (rb_priority b) = false →
  priority (userNotification b t email now created) = "medium"
  ∧ severity (userNotification b t email now created) = "info"
  ∧ derive_severity (Some (priority (userNotification b t email now created))) = "warning".
Proof.
  intros Hp. cbn.
  destruct (rb_priority b) as [p|]; cbn in *; [|done].
  apply bool_decide_eq_false in Hp. apply dec_stable in Hp. by subst p.
Qed.

End Severity.

(** ** Opening a notification *)

Section MarkOpened.

Variable clock : nat → Z.
Variable post_resolves : string → TrackingPayload → bool.

Lemma findOne_from_insert nid email n' (d : Collection) : ∀ k i n,
  findOne_from k nid email d = Some (i, n) →
  notificationId n' = notificationId n → userEmail n' = userEmail n →
  findOne_from k nid email (<[(i - k)%nat := n']> d) = Some (i, n').
Proof.
  induction d as [|m d IH]; intros k i n H Hid Hem; [discriminate|].
  pose proof (findOne_from_lookup _ _ _ _ _ _ H) as (Hle & _ & Hn & He).
  cbn in H.
  destruct (bool_decide (notificationId m = nid) && bool_decide (userEmail m = email)) eqn:Hm.
  - injection H as <- <-. rewrite Nat.sub_diag. cbn.
    rewrite Hid, Hem, Hm. done.
  - pose proof (findOne_from_lookup _ _ _ _ _ _ H) as (Hle' & _).
    replace (i - k)%nat with (S (i - S k)) by lia. cbn.
    rewrite Hm. by eapply IH.
Qed.

Lemma findOne_insert nid email n' (d : Collection) i n :
  findOne nid email d = Some (i, n) →
  notificationId n' = notificationId n → userEmail n' = userEmail n →
  findOne nid email (<[i := n']> d) = Some (i, n').
Proof.
  intros H Hid Hem. unfold findOne in *.
  pose proof (findOne_from_insert nid email n' d 0 i n H Hid Hem) as H'.
  by rewrite Nat.sub_0_r in H'.
Qed.

(** The guard [if (notification.opened)]: nothing is written, nothing is
    posted. *)
Lemma mark_opened_already email nid w i n :
  email ≠ "" → nid ≠ "" →
  findOne nid email (db w) = Some (i, n) → opened n = true →
  mark_opened clock post_resolves (Some email) (Some nid) w = (w, MarkAlready).
Proof.
  intros He Hn Hf Ho. unfold mark_opened. cbn.
  rewrite !bool_decide_eq_true_2 by done. cbn.
  by rewrite Hf, Ho.
Qed.

(** The first transition. *)
Lemma mark_opened_first email nid w i n :
  email ≠ "" → nid ≠ "" →
  findOne nid email (db w) = Some (i, n) → opened n = false →
  let n1 := open_notification (clock (ticks w)) n in
  let w1 := (mark_opened clock post_resolves (Some email) (Some nid) w).1 in
  (mark_opened clock post_resolves (Some email) (Some nid) w).2
    = MarkOpened (http_projection n1)
  ∧ db w1 = <[i := n1]> (db w)
  ∧ clients w1 = clients w ∧ wire w1 = wire w ∧ ticks w1 = S (ticks w)
  ∧ posts w1 =
      posts w ++
      (if trackingEnabled n && truthy_str (trackingCallbackUrl n)
       then [mkCallbackAttempt (default "" (trackingCallbackUrl n))
               (trackingPayload n1 email)
               (post_resolves (default "" (trackingCallbackUrl n))
                  (trackingPayload n1 email))]
       else []).
Proof.
  intros He Hn Hf Ho. unfold mark_opened. cbn.
  rewrite !bool_decide_eq_true_2 by done. cbn.
  rewrite Hf, Ho. cbn.
  destruct (trackingEnabled n && truthy_str (trackingCallbackUrl n)); cbn;
    rewrite ?app_nil_r; done.
Qed.

End MarkOpened.

Section OpenOnce.

Variable clock : nat → Z.
Variable post_resolves : string → TrackingPayload → bool.

(** Calls handled one after the other.  On a record that is already
    opened the call answers "already marked" and leaves the whole state as
    it was.  On a record that is not, a call that runs through stamps
    read, opened and openedAt and issues at most one callback; a call that
    starts after it has answered, whatever the clock and the network do,
    changes nothing and posts nothing, and no later request that is
    handled in one piece alters the record again. *)
Theorem mark_opened_twice_in_sequence email nid w i n :
  email ≠ "" → nid ≠ "" →
  findOne nid email (db w) = Some (i, n) →
  (opened n = true →
     mark_opened clock post_resolves (Some email) (Some nid) w = (w, MarkAlready))
  ∧ (opened n = false →
     let n1 := open_notification (clock (ticks w)) n in
     let w1 := (mark_opened clock post_resolves (Some email) (Some nid) w).1 in
     (mark_opened clock post_resolves (Some email) (Some nid) w).2
       = MarkOpened (http_projection n1)
     ∧ db w1 !! i = Some n1
     ∧ read n1 = true ∧ opened n1 = true ∧ openedAt n1 = Some (clock (ticks w))
     ∧ (length (posts w1) ≤ S (length (posts w)))%nat
     ∧ (∀ clock' post',
          mark_opened clock' post' (Some email) (Some nid) w1 = (w1, MarkAlready))
     ∧ (∀ clock' throws' post' rs,
          db (serve clock' throws' post' rs w1) !! i = Some n1)).
Proof.
  intros He Hn Hf. split; [intros Ho; by eapply mark_opened_already|].
  intros Ho n1 w1.
  destruct (mark_opened_first clock post_resolves email nid w i n He Hn Hf Ho)
    as (Hr & Hdb & _ & _ & _ & Hp).
  fold n1 w1 in Hr, Hdb, Hp.
  pose proof (findOne_lookup _ _ _ _ _ Hf) as (Hi & _ & _).
  assert (db w1 !! i = Some n1) as Hi1.
  { rewrite Hdb. apply list_lookup_insert_eq. by eapply lookup_lt_Some. }
  split_and!; try done.
  - rewrite Hp, length_app.
    destruct (trackingEnabled n && truthy_str (trackingCallbackUrl n)); cbn; lia.
  - intros clock' post'.
    apply (mark_opened_already clock' post' email nid w1 i n1); [done|done| |done].
    rewrite Hdb. by apply findOne_insert with (n := n).
  - intros clock' throws' post' rs.
    eapply rtc_db_step_frozen; [apply serve_db_steps|done..].
Qed.

End OpenOnce.

Lemma truthy_str_Some x : truthy_str x = true → x = Some (default "" x).
Proof. by destruct x. Qed.

(** *** Calls that overlap *)

Section Overlap.

Variable clock : nat → Z.
Variable post_resolves : string → TrackingPayload → bool.

Lemma alter_lookup_insert {A} (f : A → A) (l : list A) : ∀ i x,
  l !! i = Some x → alter f i l = <[i := f x]> l.
Proof.
  induction l as [|y l IH]; intros [|i] x H; try done.
  - by injection H as ->.
  - cbn. f_equal. by apply IH.
Qed.

(** Run back to back, the three stretches are the handler. *)
Lemma mark_opened_stretches cookie nid w :
  let s1 := mark_opened_save clock (mark_opened_find cookie nid w) w in
  mark_opened_post post_resolves s1.2 s1.1
  = ((mark_opened clock post_resolves cookie nid w).1,
     CallAnswered (mark_opened clock post_resolves cookie nid w).2).
Proof.
  unfold mark_opened_find, mark_opened.
  destruct (negb (truthy_str cookie)); [done|].
  destruct (negb (truthy_str nid)); [done|].
  destruct (findOne _ _ _) as [[i n]|] eqn:Hf; [|done].
  apply findOne_lookup in Hf as (Hi & _).
  cbn. destruct (opened n); [done|]. cbn.
  rewrite (alter_lookup_insert _ _ _ _ Hi).
  by destruct (trackingEnabled n && truthy_str (trackingCallbackUrl n)).
Qed.

(** An opened document stays opened under [save]; only the stamp moves. *)
Lemma open_notification_again now now' n :
  open_notification now' (open_notification now n) = open_notification now' n.
Proof. done. Qed.

(** C3 (where the code departs from it).  The guard on [opened] looks at
    the document as [findOne] returned it, and the handler is suspended
    between the query and [save].  Two calls for one unopened record whose
    queries are both answered before either has saved both pass the
    guard: both stamp the record, the second stamp overwriting the first,
    both answer with an opened record, each with its own [openedAt], and,
    for a tracked record, both post the callback. *)
Theorem C3_overlapping_calls_both_open email nid w i n :
  email ≠ "" → nid ≠ "" →
  findOne nid email (db w) = Some (i, n) → opened n = false →
  let first := mark_opened_find (Some email) (Some nid) w in
  let second := mark_opened_find (Some email) (Some nid) w in
  let s1 := mark_opened_save clock first w in
  let s2 := mark_opened_save clock second s1.1 in
  let s3 := mark_opened_post post_resolves s1.2 s2.1 in
  let s4 := mark_opened_post post_resolves s2.2 s3.1 in
  let n1 := open_notification (clock (ticks w)) n in
  let n2 := open_notification (clock (S (ticks w))) n in
  s3.2 = CallAnswered (MarkOpened (http_projection n1))
  ∧ s4.2 = CallAnswered (MarkOpened (http_projection n2))
  ∧ db s1.1 !! i = Some n1
  ∧ db s4.1 !! i = Some n2
  ∧ (trackingEnabled n && truthy_str (trackingCallbackUrl n) = true →
       ∃ a1 a2,
         posts s4.1 = posts w ++ [a1; a2]
         ∧ tp_openedAt (cb_payload a1) = Some (clock (ticks w))
         ∧ tp_openedAt (cb_payload a2) = Some (clock (S (ticks w)))).
Proof.
  intros He Hn Hf Ho first second s1 s2 s3 s4 n1 n2.
  pose proof (findOne_lookup _ _ _ _ _ Hf) as (Hi & _).
  assert (first = CallFound email i n) as Hfirst.
  { unfold first, mark_opened_find. cbn.
    rewrite !bool_decide_eq_true_2 by done. cbn. by rewrite Hf. }
  assert (s1 = (set_ticks (S (ticks w))
                  (set_db (<[i := n1]> (db w)) w), CallSaved email n1)) as Hs1.
  { unfold s1. rewrite Hfirst. cbn. rewrite Ho.
    by rewrite (alter_lookup_insert _ _ _ _ Hi). }
  assert (db s1.1 !! i = Some n1) as Hi1.
  { rewrite Hs1. cbn. apply list_lookup_insert_eq. by eapply lookup_lt_Some. }
  assert (s2 = (set_ticks (S (S (ticks w)))
                  (set_db (<[i := n2]> (db s1.1)) s1.1), CallSaved email n2)) as Hs2.
  { unfold s2, second. fold first. rewrite Hfirst. cbn. rewrite Ho.
    rewrite (alter_lookup_insert _ _ _ _ Hi1). by rewrite Hs1. }
  assert (db s2.1 !! i = Some n2) as Hi2.
  { rewrite Hs2. cbn. apply list_lookup_insert_eq. by eapply lookup_lt_Some. }
  assert (posts s2.1 = posts w) as Hp2 by (by rewrite Hs2, Hs1).
  assert (trackingEnabled n1 = trackingEnabled n
          ∧ trackingCallbackUrl n1 = trackingCallbackUrl n
          ∧ trackingEnabled n2 = trackingEnabled n
          ∧ trackingCallbackUrl n2 = trackingCallbackUrl n) as (Ht1 & Hu1 & Ht2 & Hu2)
    by done.
  assert (s3.2 = CallAnswered (MarkOpened (http_projection n1))
          ∧ db s3.1 = db s2.1) as [Hr3 Hd3].
  { unfold s3. rewrite Hs1. cbn [fst snd mark_opened_post].
    by destruct (_ && _). }
  assert (s4.2 = CallAnswered (MarkOpened (http_projection n2))
          ∧ db s4.1 = db s3.1) as [Hr4 Hd4].
  { unfold s4. rewrite Hs2. cbn [fst snd mark_opened_post].
    by destruct (_ && _). }
  split_and!; [done|done|done|by rewrite Hd4, Hd3|].
  intros Htracked.
  unfold s4. rewrite Hs2. cbn [fst snd mark_opened_post].
  rewrite Ht2, Hu2, Htracked.
  unfold s3. rewrite Hs1. cbn [fst snd mark_opened_post].
  rewrite Ht1, Hu1, Htracked.
  eexists _, _. cbn [posts set_posts]. rewrite Hp2, <- app_assoc.
  split_and!; [reflexivity|done..].
Qed.

(** A callback needs an opened answer.  Whatever is served while a call
    is suspended ([w], [w'] and [w''] are the states in which its three
    stretches run), the call ends with an answer, posts nothing before
    its last stretch and at most one callback in it, and posts only when
    it answers with an opened record: the record is tracked, the POST goes
    to its callback URL, and it carries the caller and the [openedAt] of
    the answer.  A call that answers 401, 400, 404 or "already marked"
    posts nothing. *)
Theorem call_posts_once_with_opened_answer cookie nid w w' w'' :
  let s1 := mark_opened_save clock (mark_opened_find cookie nid w) w' in
  let s2 := mark_opened_post post_resolves s1.2 w'' in
  posts s1.1 = posts w'
  ∧ ∃ answer,
      s2.2 = CallAnswered answer
      ∧ (posts s2.1 = posts w''
         ∨ ∃ a n,
             posts s2.1 = posts w'' ++ [a]
             ∧ answer = MarkOpened (http_projection n)
             ∧ opened n = true ∧ trackingEnabled n = true
             ∧ trackingCallbackUrl n = Some (cb_url a)
             ∧ tp_openedAt (cb_payload a) = openedAt n
             ∧ cookie = Some (tp_userEmail (cb_payload a))).
Proof.
  unfold mark_opened_find.
  destruct (truthy_str cookie) eqn:Hc; cbn [negb];
    [|split; [done|]; eexists; split; [done|by left]].
  destruct (negb (truthy_str nid));
    [split; [done|]; eexists; split; [done|by left]|].
  destruct (findOne _ _ _) as [[i n]|];
    [|split; [done|]; eexists; split; [done|by left]].
  cbn [mark_opened_save].
  destruct (opened n) eqn:Ho;
    [split; [done|]; eexists; split; [done|by left]|].
  cbn [fst snd mark_opened_post]. split; [done|].
  eexists. split; [done|].
  destruct (trackingEnabled _ && truthy_str _) eqn:Ht; [|by left].
  right. apply andb_true_iff in Ht as [Hte Htu].
  eexists _, _. split_and!; [done|done|done|exact Hte| |done|].
  - cbn [cb_url]. by apply truthy_str_Some.
  - cbn. by apply truthy_str_Some.
Qed.

End Overlap.

(** C8.  The outcome of the tracking call does not reach the caller.  Two
    environments that differ only in what the outbound POST does give the
    same response and the same collection; and when the first transition of a
    tracked record is made, the record is stored as transitioned and the
    response is its projection, with the attempt on record, whether the
    POST resolved or not. *)
Theorem C8_callback_outcome_swallowed clock post post' email nid w i n :
  email ≠ "" → nid ≠ "" →
  findOne nid email (db w) = Some (i, n) →
  opened n = false →
  trackingEnabled n = true → truthy_str (trackingCallbackUrl n) = true →
  let n1 := open_notification (clock (ticks w)) n in
  let out := mark_opened clock post (Some email) (Some nid) w in
  let out' := mark_opened clock post' (Some email) (Some nid) w in
  out.2 = MarkOpened (http_projection n1)
  ∧ out'.2 = out.2
  ∧ db out.1 = <[i := n1]> (db w)
  ∧ db out'.1 = db out.1
  ∧ read n1 = true ∧ opened n1 = true ∧ openedAt n1 = Some (clock (ticks w))
  ∧ cb_resolved <$> posts out.1
    = (cb_resolved <$> posts w)
      ++ [post (default "" (trackingCallbackUrl n)) (trackingPayload n1 email)].
Proof.
  intros He Hn Hf Ho Ht Hu n1 out out'.
  destruct (mark_opened_first clock post email nid w i n He Hn Hf Ho)
    as (Hr & Hdb & _ & _ & _ & Hp).
  destruct (mark_opened_first clock post' email nid w i n He Hn Hf Ho)
    as (Hr' & Hdb' & _ & _ & _ & _).
  fold n1 out in Hr, Hdb, Hp. fold n1 out' in Hr', Hdb'.
  rewrite Ht, Hu in Hp. cbn [andb] in Hp.
  split_and!; try done; try congruence.
  rewrite Hp, fmap_app. done.
Qed.

(** The response and the collection never depend on the POST, in any
    state and for any request. *)
Lemma mark_opened_ignores_post clock post post' cookie nid w :
  (mark_opened clock post cookie nid w).2 = (mark_opened clock post' cookie nid w).2
  ∧ db (mark_opened clock post cookie nid w).1 = db (mark_opened clock post' cookie nid w).1.
Proof.
  unfold mark_opened.
  destruct (negb (truthy_str cookie)); [done|].
  destruct (negb (truthy_str nid)); [done|].
  destruct (findOne _ _ _) as [[i n]|]; [|done].
  destruct (opened n); [done|]. cbn.
  destruct (trackingEnabled n && truthy_str (trackingCallbackUrl n)); done.
Qed.

(** ** The registry of open channels *)

Section Registry.

Lemma foldl_on_close_clients (ls : list (Channel * string)) email : ∀ w,
  clients (foldl (λ w' l, on_close l.2 w') w ls) !! email
  = if bool_decide (email ∈ ls.*2) then None else clients w !! email.
Proof.
  induction ls as [|[res e] ls IH]; intros w.
  - cbn. rewrite bool_decide_eq_false_2; [done|]. apply not_elem_of_nil.
  - cbn [foldl]. rewrite IH. cbn [fmap list_fmap snd].
    destruct (decide (email ∈ ls.*2)) as [Hin|Hnin].
    + rewrite !bool_decide_eq_true_2; [done| |done]. by right.
    + rewrite (bool_decide_eq_false_2 _ Hnin).
      cbn. destruct (decide (e = email)) as [->|Hne].
      * rewrite lookup_delete_eq.
        rewrite bool_decide_eq_true_2; [done|]. by left.
      * rewrite lookup_delete_ne by done.
        rewrite bool_decide_eq_false_2; [done|].
        intros [?|?]%elem_of_cons; congruence.
Qed.

Lemma listener_of (ls : list (Channel * string)) res email :
  email ∈ (filter (λ l, l.1 = res) ls).*2 ↔ (res, email) ∈ ls.
Proof.
  rewrite list_elem_of_fmap. split.
  - intros ([r e] & -> & [Hr Hin]%list_elem_of_filter). cbn in Hr. by subst r.
  - intros Hin. exists (res, email). split; [done|].
    apply list_elem_of_filter. done.
Qed.

(** C4 (as the code has it).  Closing a connection deletes the entry of
    each identity it registered a listener for, without looking at the
    channel that is stored there; the other entries stay. *)
Theorem C4_close_deletes_by_identity res email w :
  clients (req_close res w) !! email
  = if bool_decide ((res, email) ∈ listeners w) then None else clients w !! email.
Proof.
  unfold req_close. cbn [clients set_listeners].
  rewrite foldl_on_close_clients.
  destruct (decide ((res, email) ∈ listeners w)) as [Hin|Hnin].
  - rewrite !bool_decide_eq_true_2; [done..|]. by apply listener_of.
  - rewrite !bool_decide_eq_false_2; [done..|]. by rewrite listener_of.
Qed.

End Registry.

(** ** Replay on connect *)

Global Instance newer_first_total : Total newer_first.
Proof. intros a b. unfold newer_first. lia. Qed.

Global Instance newer_first_trans : Transitive newer_first.
Proof. intros a b c. unfold newer_first. lia. Qed.

Section Replay.

Variable write_throws : Channel → SseEvent → bool.

Lemma write_each_finished res evs : ∀ out out',
  write_each write_throws res evs out = (out', true) →
  out' = out ++ ((λ e, (res, e)) <$> evs).
Proof.
  induction evs as [|e evs IH]; intros out out' H; cbn in H.
  - injection H as <-. by rewrite app_nil_r.
  - destruct (write_throws res e); [discriminate|].
    apply IH in H as ->. by rewrite <- app_assoc.
Qed.

Lemma find_pending_spec email (d : Collection) :
  find_pending email d ≡ₚ filter (λ n, userEmail n = email ∧ opened n = false) d
  ∧ StronglySorted newer_first (find_pending email d).
Proof.
  unfold find_pending, sort_createdAt_desc. split.
  - apply merge_sort_Permutation.
  - apply StronglySorted_merge_sort; apply _.
Qed.

(** Run back to back, the two stretches are the handler. *)
Lemma get_events_stretches cookie res w :
  get_events write_throws cookie res w
  = match get_events_begin write_throws cookie res w with
    | (w1, Some answer) => (w1, answer)
    | (w1, None) => get_events_resume write_throws (default "" cookie) res w1
    end.
Proof.
  unfold get_events, get_events_begin, get_events_resume.
  destruct (negb (truthy_str cookie)); [done|].
  by destruct (write_throws res EvConnected).
Qed.

(** The replay of a string identity.  When the handler resumes after its
    query and the stream stays open, what it writes is the unopened
    records of the identity as they are then and nothing else, each once,
    the most recently created first; the close listener is registered
    after that. *)
Theorem replay_unopened_newest_first email res w w' :
  get_events_resume write_throws email res w = (w', EventsOpen) →
  let replay := find_pending email (db w) in
  wire w' = wire w ++ ((λ n, (res, EvNotification (sse_projection n))) <$> replay)
  ∧ replay ≡ₚ filter (λ n, userEmail n = email ∧ opened n = false) (db w)
  ∧ StronglySorted newer_first replay
  ∧ (∀ n, n ∈ replay ↔ n ∈ db w ∧ userEmail n = email ∧ opened n = false)
  ∧ listeners w' = listeners w ++ [(res, email)]
  ∧ clients w' = clients w.
Proof.
  intros H replay.
  destruct (find_pending_spec email (db w)) as [Hperm Hsorted].
  fold replay in Hperm, Hsorted.
  unfold get_events_resume in H.
  destruct (write_each _ _ _ _) as [out finished] eqn:Hw.
  destruct finished; [|discriminate].
  injection H as <-.
  apply write_each_finished in Hw as ->.
  cbn. split_and!; try done.
  - unfold replay_events. by rewrite <- list_fmap_compose.
  - intros n. rewrite Hperm, list_elem_of_filter. tauto.
Qed.

Lemma find_pending_where_text email (d : Collection) :
  find_pending_where (CookieText email) d = find_pending email d.
Proof.
  unfold find_pending_where, find_pending. f_equal.
  apply list_filter_iff. intros n. cbn. by rewrite bool_decide_eq_true.
Qed.

(** For a string, the replay for the cookie as parsed is the replay of
    the identity. *)
Lemma replay_events_where_text email (d : Collection) :
  replay_events_where (CookieText email) d = replay_events email d.
Proof. unfold replay_events_where. by rewrite find_pending_where_text. Qed.

(** C5 (where the code departs from it).  The cookie is handed to the
    query without a check that it is a string.  For a [j:] cookie that
    holds an object of operators met by every stored address, such as
    [{"$ne": null}], the [!email] test passes and the query returns the
    unopened records of everybody: each of them, whoever its recipient
    is, is written on the stream of the caller. *)
Theorem C5_operator_cookie_replays_everyone matches (d : Collection) :
  (∀ stored, matches stored = true) →
  truthy_cookie (Some (CookieOperators matches)) = true
  ∧ find_pending_where (CookieOperators matches) d
    ≡ₚ filter (λ n, opened n = false) d
  ∧ ∀ n, n ∈ d → opened n = false →
      EvNotification (sse_projection n)
      ∈ replay_events_where (CookieOperators matches) d.
Proof.
  intros Hall.
  assert (find_pending_where (CookieOperators matches) d
          ≡ₚ filter (λ n, opened n = false) d) as Hperm.
  { unfold find_pending_where, sort_createdAt_desc.
    rewrite merge_sort_Permutation.
    erewrite list_filter_iff; [done|]. intros n. cbn. rewrite Hall. tauto. }
  split_and!; [done|done|].
  intros n Hn Ho. unfold replay_events_where.
  apply list_elem_of_fmap. exists n. split; [done|].
  rewrite Hperm. by apply list_elem_of_filter.
Qed.

End Replay.

(** ** Validation of a batch *)

Section Validation.

Variable clock : nat → Z.
Variable write_throws : Channel → SseEvent → bool.


End Validation.

(** ** Invariants of every run *)

Section Invariants.

Variable clock : nat → Z.
Variable write_throws : Channel → SseEvent → bool.
Variable post_resolves : string → TrackingPayload → bool.

Lemma serve_unique_ids rs w :
  unique_ids (db w) →
  unique_ids (db (serve clock write_throws post_resolves rs w)).
Proof. apply rtc_db_step_unique_ids, serve_db_steps. Qed.

Lemma serve_read_is_opened rs w :
  read_is_opened (db w) →
  read_is_opened (db (serve clock write_throws post_resolves rs w)).
Proof. apply rtc_db_step_read_is_opened, serve_db_steps. Qed.

Lemma filter_id_absent (d : Collection) id :
  id ∉ notificationId <$> d → filter (λ n, notificationId n = id) d = [].
Proof.
  induction d as [|m d IH]; intros Hid; [done|].
  rewrite fmap_cons in Hid. apply not_elem_of_cons in Hid as [Hm Hd].
  rewrite filter_cons_False by congruence. by apply IH.
Qed.

Lemma unique_ids_at_most_one (d : Collection) id :
  unique_ids d → (length (filter (λ n, notificationId n = id) d) ≤ 1)%nat.
Proof.
  unfold unique_ids. induction d as [|m d IH]; intros Hd; [cbn; lia|].
  rewrite fmap_cons in Hd. apply NoDup_cons in Hd as [Hm Hd].
  rewrite filter_cons. case_decide as Heq; [|by apply IH].
  rewrite filter_id_absent; [cbn; lia|]. by rewrite <- Heq.
Qed.

Lemma derive_notificationId_key nid uid1 email1 uid2 email2 :
  recipient_key uid1 email1 = recipient_key uid2 email2 →
  derive_notificationId nid uid1 email1 = derive_notificationId nid uid2 email2.
Proof. unfold derive_notificationId. by intros ->. Qed.

(** C6 (as the code has it).  The id of a record is a function of the
    source id and of the recipient key, which is the userId when there is
    a non-zero one and the email otherwise.  Two targets that agree on
    both get the same id; along any run at most one document carries
    that id, and [create] refuses a document whose id is stored. *)
Theorem C6_one_record_per_source_and_key rs w b1 b2 t1 t2 e1 e2 now1 c1 now2 c2 :
  unique_ids (db w) →
  rb_notificationId b1 = rb_notificationId b2 →
  recipient_key (tu_userId t1) e1 = recipient_key (tu_userId t2) e2 →
  let n1 := userNotification b1 t1 e1 now1 c1 in
  let n2 := userNotification b2 t2 e2 now2 c2 in
  notificationId n1 = notificationId n2
  ∧ (length (filter (λ n, notificationId n = notificationId n1)
               (db (serve clock write_throws post_resolves rs w))) ≤ 1)%nat
  ∧ (∀ d : Collection, n1 ∈ d → ∃ e, create n2 d = inl e).
Proof.
  intros Hu Hnid Hkey n1 n2.
  assert (notificationId n1 = notificationId n2) as Hid.
  { cbn. rewrite Hnid. by apply derive_notificationId_key. }
  split_and!; [done| |].
  - by apply unique_ids_at_most_one, serve_unique_ids.
  - intros d Hin. apply create_taken. rewrite <- Hid.
    by apply list_elem_of_fmap_2.
Qed.

Lemma length_filter_unread_projection (l : Collection) :
  length (filter (λ p, p_read p = false) (http_projection <$> l))
  = length (filter (λ n, read n = false) l).
Proof.
  induction l as [|n l IH]; [done|].
  rewrite fmap_cons, !filter_cons. cbn [http_projection p_read].
  destruct (decide (read n = false)); cbn; by rewrite IH.
Qed.

Lemma filter_unread_is_unopened email (d : Collection) :
  read_is_opened d →
  filter (λ n, read n = false) (filter (λ n, userEmail n = email) d)
  = filter (λ n, userEmail n = email ∧ opened n = false) d.
Proof.
  unfold read_is_opened. induction 1 as [|n d Hn Hd IH]; [done|].
  rewrite !filter_cons.
  destruct (decide (userEmail n = email)) as [He|He].
  - rewrite filter_cons, IH.
    destruct (decide (read n = false)) as [Hr|Hr].
    + rewrite decide_True; [done|]. split; [done|congruence].
    + rewrite decide_False; [done|]. intros [_ Ho]. congruence.
  - rewrite IH, decide_False; [done|]. by intros [? _].
Qed.

Lemma unreadCount_is_unopened email (d : Collection) :
  read_is_opened d →
  length (filter (λ p, p_read p = false) (http_projection <$> find_by_user email d))
  = length (filter (λ n, userEmail n = email ∧ opened n = false) d).
Proof.
  intros Hd. rewrite length_filter_unread_projection.
  unfold find_by_user, sort_createdAt_desc.
  rewrite (merge_sort_Permutation newer_first).
  by rewrite filter_unread_is_unopened.
Qed.

(** C9.  If read and opened agree on every stored record, they still do
    after any sequence of requests; the unread count of the list
    endpoint is then the number of unopened records of the caller. *)
Theorem C9_read_equals_opened rs w :
  read_is_opened (db w) →
  let w' := serve clock write_throws post_resolves rs w in
  read_is_opened (db w')
  ∧ ∀ email ps c u,
      get_notifications (Some email) w' = List200 ps c u →
      u = length (filter (λ n, userEmail n = email ∧ opened n = false) (db w')).
Proof.
  intros Hd w'.
  assert (read_is_opened (db w')) as Hd' by by apply serve_read_is_opened.
  split; [done|].
  intros email ps c u H. unfold get_notifications in H.
  destruct (negb (truthy_str (Some email))); [discriminate|].
  injection H as _ _ <-. by apply unreadCount_is_unopened.
Qed.

End Invariants.

(** ** The recipient key *)

Section RecipientKey.

Variable clock : nat → Z.
Variable write_throws : Channel → SseEvent → bool.

Lemma recipient_key_userId uid email :
  truthy_num (Some uid) = true → recipient_key (Some uid) email = number_text uid.
Proof. intros H. unfold recipient_key. by rewrite H. Qed.

Lemma recipient_key_falsy uid email :
  truthy_num uid = false → recipient_key uid email = email.
Proof. intros H. unfold recipient_key. by rewrite H. Qed.

Lemma recipient_key_zero email : recipient_key (Some (js_int 0)) email = email.
Proof. done. Qed.

Lemma recipient_key_absent email : recipient_key None email = email.
Proof. done. Qed.

Lemma derive_notificationId_nonempty nid uid email :
  derive_notificationId nid uid email ≠ "".
Proof.
  unfold derive_notificationId. by destruct (template_str nid).
Qed.

Lemma derive_notificationId_inj nid uid1 email1 uid2 email2 :
  derive_notificationId nid uid1 email1 = derive_notificationId nid uid2 email2 →
  recipient_key uid1 email1 = recipient_key uid2 email2.
Proof.
  unfold derive_notificationId. intros H.
  apply (inj (String.app (template_str nid))) in H.
  by apply (inj (String.app "-")) in H.
Qed.

Lemma severity_enum_derive p : severity_enum (derive_severity p) = true.
Proof.
  unfold derive_severity.
  destruct (strict_eq_str p "high"); [done|].
  by destruct (strict_eq_str p "medium").
Qed.

Lemma truthy_str_default x : truthy_str x = true → default "" x ≠ "".
Proof. destruct x as [s|]; cbn; [|done]. by intros ?%bool_decide_eq_true. Qed.

Lemma schema_valid_userNotification b t email now created :
  batch_storable b → email ≠ "" →
  schema_valid (userNotification b t email now created) = true.
Proof.
  intros (Hnid & Ht & Hc & Hp) He. unfold schema_valid. cbn.
  rewrite Hp, severity_enum_derive, !andb_true_r.
  rewrite !andb_true_iff, !bool_decide_eq_true.
  split_and!; auto using derive_notificationId_nonempty, truthy_str_default.
Qed.

Lemma create_fresh n (d : Collection) :
  schema_valid n = true → notificationId n ∉ notificationId <$> d →
  create n d = inr (d ++ [n]).
Proof.
  intros Hv Hf. unfold create, id_taken. rewrite Hv. cbn.
  by rewrite bool_decide_eq_false_2.
Qed.

Lemma create_duplicate n (d : Collection) :
  schema_valid n = true → notificationId n ∈ notificationId <$> d →
  create n d = inl DuplicateKey.
Proof.
  intros Hv Hf. unfold create, id_taken. rewrite Hv. cbn.
  by rewrite bool_decide_eq_true_2.
Qed.

(** The turn of a target whose document is refused by the store. *)
Lemma process_target_refused b w r t email e :
  tu_email t = Some email → email ≠ "" →
  create (userNotification b t email (clock (ticks w)) (clock (S (ticks w)))) (db w)
    = inl e →
  process_target clock write_throws b (w, r) t
  = (set_ticks (S (S (ticks w))) w,
     push_failed
       {| fe_email := Some email;
          fe_userId := inl <$> tu_userId t;
          fe_name := tu_name t;
          fe_reason := "Failed to store/send notification";
          fe_error := Some (StoreFailed e) |} r).
Proof.
  intros Hem He Hc. unfold process_target. rewrite Hem. cbn.
  rewrite bool_decide_eq_true_2 by done. cbn. by rewrite Hc.
Qed.

(** The turn of a target whose document is accepted. *)
Lemma process_target_accepted b w r t email :
  tu_email t = Some email → email ≠ "" → batch_storable b →
  derive_notificationId (rb_notificationId b) (tu_userId t) email
    ∉ notificationId <$> db w →
  db (process_target clock write_throws b (w, r) t).1
    = db w ++ [userNotification b t email (clock (ticks w)) (clock (S (ticks w)))]
  ∧ ticks (process_target clock write_throws b (w, r) t).1 = S (S (ticks w)).
Proof.
  intros Hem He Hb Hfresh. unfold process_target. rewrite Hem. cbn.
  rewrite bool_decide_eq_true_2 by done. cbn.
  rewrite create_fresh; [|by apply schema_valid_userNotification|done].
  cbn. destruct (clients w !! email) as [ch|]; cbn; [|done].
  by destruct (write_throws ch _).
Qed.

(** C10 (as the code has it).  A userId that is a truthy number (not
    zero, not NaN) is the recipient key, printed as the template literal
    prints a number, and the email is not looked at; otherwise the key is
    the email.  Hence two targets of a storable batch with the same truthy
    userId and any two emails get the same id: the first is persisted and
    the second refused as a duplicate and reported on the failed list.
    And one email sent with a truthy userId and then without any gives two
    ids, and two documents, provided the email is not the text printed for
    the userId. *)
Theorem C10_recipient_key_collisions b uid e1 e2 nm1 nm2 w r :
  truthy_num (Some uid) = true → e1 ≠ "" → e2 ≠ "" → batch_storable b →
  let t1 := mkTargetUser (Some e1) (Some uid) nm1 in
  let t2 := mkTargetUser (Some e2) (Some uid) nm2 in
  let t3 := mkTargetUser (Some e1) None nm1 in
  let id1 := derive_notificationId (rb_notificationId b) (Some uid) e1 in
  let id3 := derive_notificationId (rb_notificationId b) None e1 in
  let n1 := userNotification b t1 e1 (clock (ticks w)) (clock (S (ticks w))) in
  let n3 := userNotification b t3 e1 (clock (S (S (ticks w)))) (clock (S (S (S (ticks w))))) in
  id1 = template_str (rb_notificationId b) +:+ "-" +:+ number_text uid
  ∧ id3 = template_str (rb_notificationId b) +:+ "-" +:+ e1
  ∧ derive_notificationId (rb_notificationId b) (Some uid) e2 = id1
  ∧ (id1 ∉ notificationId <$> db w →
       let out := foldl (process_target clock write_throws b) (w, r) [t1; t2] in
       db out.1 = db w ++ [n1]
       ∧ ∃ f, last (failed out.2) = Some f
              ∧ fe_email f = Some e2
              ∧ fe_error f = Some (StoreFailed DuplicateKey))
  ∧ (number_text uid ≠ e1 →
       id1 ∉ notificationId <$> db w → id3 ∉ notificationId <$> db w →
       let out := foldl (process_target clock write_throws b) (w, r) [t1; t3] in
       db out.1 = db w ++ [n1; n3] ∧ notificationId n1 ≠ notificationId n3).
Proof.
  intros Hu He1 He2 Hb t1 t2 t3 id1 id3 n1 n3.
  assert (id1 = template_str (rb_notificationId b) +:+ "-" +:+ number_text uid) as Hid1.
  { unfold id1, derive_notificationId. by rewrite recipient_key_userId. }
  assert (derive_notificationId (rb_notificationId b) (Some uid) e2 = id1) as Hid2.
  { rewrite Hid1. unfold derive_notificationId. by rewrite recipient_key_userId. }
  split_and!; [done..| |].
  - intros Hfresh out. unfold out. cbn [foldl].
    destruct (process_target_accepted b w r t1 e1 eq_refl He1 Hb Hfresh)
      as (Hdb & Htk).
    destruct (process_target clock write_throws b (w, r) t1) as [w1 r1].
    cbn [fst snd] in Hdb, Htk.
    rewrite (process_target_refused b w1 r1 t2 e2 DuplicateKey eq_refl He2).
    + cbn. split; [done|]. eexists. rewrite last_snoc. done.
    + apply create_duplicate; [by apply schema_valid_userNotification|].
      cbn [notificationId userNotification tu_userId t2].
      rewrite Hid2, Hdb, fmap_app. apply elem_of_app. right.
      apply list_elem_of_singleton. done.
  - intros Hne Hf1 Hf3 out. unfold out. cbn [foldl].
    assert (id1 ≠ id3) as Hdiff.
    { intros Heq%derive_notificationId_inj.
      rewrite recipient_key_userId in Heq by done. done. }
    destruct (process_target_accepted b w r t1 e1 eq_refl He1 Hb Hf1)
      as (Hdb & Htk).
    destruct (process_target clock write_throws b (w, r) t1) as [w1 r1].
    cbn [fst snd] in Hdb, Htk.
    destruct (process_target_accepted b w1 r1 t3 e1 eq_refl He1 Hb) as (Hdb3 & _).
    { cbn [tu_userId t3]. fold id3. rewrite Hdb, fmap_app.
      intros [?|Hin]%elem_of_app; [done|].
      apply list_elem_of_singleton in Hin. by apply Hdiff. }
    rewrite Hdb3, Hdb, Htk, <- app_assoc. done.
Qed.

End RecipientKey.

(** * The statements on sample runs *)

(** The batch [a, null, b] sent while a@x is connected: the answer is the
    500 of the handler's [catch], yet the document of a@x is stored and
    pushed, and nothing is stored for b@x. *)
Lemma C1_null_target_aborts_batch_witness :
  (receive clock_ms never_throws null_batch pair_world).2
  = Receive500 "Cannot destructure property 'email' of 'targetUser' as it is null."
  ∧ notificationId <$> db (receive clock_ms never_throws null_batch pair_world).1
    = ["rel-1-a@x"]
  ∧ length (wire (receive clock_ms never_throws null_batch pair_world).1)
    = S (length (wire pair_world)).
Proof.
  destruct (C1_null_target_aborts_batch clock_ms never_throws null_batch
              [target "a@x"] [Some (target "b@x")] pair_world) as (Hr & _ & _);
    [reflexivity..|].
  rewrite Hr. split_and!; vm_compute; reflexivity.
Defined.


(** The two dispatch scenarios of the specification: nobody connected,
    then the first recipient connected. *)
Example dispatch_nobody_connected :
  (receive clock_ms never_throws pair_batch boot).2
  = Receive200 0
      {| success := [];
         failed :=
           [mkFailedEntry (Some "a@x") None None
              "User not connected (notification stored for later)" None;
            mkFailedEntry (Some "b@x") None None
              "User not connected (notification stored for later)" None];
         total := 2 |}.
Proof. vm_compute. reflexivity. Qed.

Example dispatch_first_connected :
  (receive clock_ms never_throws pair_batch pair_world).2 = Receive200 1 pair_results.
Proof. vm_compute. reflexivity. Qed.

Lemma C2_omitted_priority_medium_info_witness :
  priority sample_record = "medium"
  ∧ severity sample_record = "info"
  ∧ derive_severity (Some (priority sample_record)) = "warning".
Proof.
  apply (C2_omitted_priority_medium_info sample_batch (target "a@x") "a@x"
           (clock_ms 0) (clock_ms 1)).
  reflexivity.
Defined.

(** The same, seen through the handler: the stored document of a batch
    without priority. *)
Example dispatch_without_priority :
  (λ n, (priority n, severity n)) <$> db sample_world = [("medium", "info")].
Proof. vm_compute. reflexivity. Qed.

Example dispatch_with_priority :
  (λ n, (priority n, severity n))
    <$> db (serve clock_ms never_throws always_resolves
              [ReqReceive (batch "r1" (Some "high") [target "a@x"]);
               ReqReceive (batch "r2" (Some "medium") [target "a@x"]);
               ReqReceive (batch "r3" (Some "low") [target "a@x"])] boot)
  = [("high", "error"); ("medium", "warning"); ("low", "info")].
Proof. vm_compute. reflexivity. Qed.

(** Two calls for the tracked record of a@x, the second query answered
    before the first call has saved: both answer with an opened record,
    the stored stamp is the one of the second call, and the originator is
    told twice, with two different times. *)
Lemma C3_overlapping_calls_both_open_witness :
  let first := mark_opened_find (Some "a@x") (Some "rel-1-a@x") sample_world in
  let second := mark_opened_find (Some "a@x") (Some "rel-1-a@x") sample_world in
  let s1 := mark_opened_save clock_ms first sample_world in
  let s2 := mark_opened_save clock_ms second s1.1 in
  let s3 := mark_opened_post always_resolves s1.2 s2.1 in
  let s4 := mark_opened_post always_resolves s2.2 s3.1 in
  s3.2 = CallAnswered (MarkOpened (http_projection (open_notification 1002 sample_record)))
  ∧ s4.2 = CallAnswered (MarkOpened (http_projection (open_notification 1003 sample_record)))
  ∧ openedAt <$> db s1.1 = [Some 1002]
  ∧ openedAt <$> db s4.1 = [Some 1003]
  ∧ (λ a, tp_openedAt (cb_payload a)) <$> posts s4.1 = [Some 1002; Some 1003].
Proof.
  intros first second s1 s2 s3 s4.
  destruct (C3_overlapping_calls_both_open clock_ms always_resolves
              "a@x" "rel-1-a@x" sample_world 0 sample_record)
    as (H3 & H4 & _); [done|done|vm_compute; reflexivity|reflexivity|].
  split_and!; [exact H3|exact H4|vm_compute; reflexivity..].
Defined.

Lemma mark_opened_twice_in_sequence_witness :
  let opened_record := open_notification (clock_ms 2) sample_record in
  let w1 := (mark_opened clock_ms always_rejects (Some "a@x") (Some "rel-1-a@x")
               sample_world).1 in
  db w1 = [opened_record]
  ∧ openedAt opened_record = Some 1002
  ∧ mark_opened clock_ms always_resolves (Some "a@x") (Some "rel-1-a@x") w1
    = (w1, MarkAlready)
  ∧ db (serve clock_ms never_throws always_resolves
          [ReqMarkOpened (Some "a@x") (Some "rel-1-a@x"); ReqReceive sample_batch] w1)
    = [opened_record].
Proof.
  intros opened_record w1.
  destruct (mark_opened_twice_in_sequence clock_ms always_rejects
              "a@x" "rel-1-a@x" sample_world 0 sample_record)
    as [_ Hfirst]; [done|done|vm_compute; reflexivity|].
  destruct (Hfirst eq_refl) as (_ & _ & _ & _ & _ & _ & Hsecond & _).
  split_and!; [vm_compute; reflexivity..|apply Hsecond|vm_compute; reflexivity].
Defined.

(** C4, refuted as stated: the identity connects on channel 1, connects
    again on channel 2, and then the older connection closes; the entry
    that held channel 2 is gone. *)
Lemma C4_stale_close_unregisters_newer :
  let w := serve clock_ms never_throws always_resolves
             [ReqEvents (Some "a@x") 1%nat; ReqEvents (Some "a@x") 2%nat] boot in
  clients w !! "a@x" = Some 2%nat
  ∧ clients (handle clock_ms never_throws always_resolves w (ReqClose 1%nat)) !! "a@x"
    = None.
Proof. vm_compute. done. Qed.

(** On the backlog, the stream opened with the cookie [j:{"$ne":null}]
    carries the unopened records of a@x and of b@x. *)
Lemma C5_operator_cookie_replays_everyone_witness :
  let d := db (serve clock_ms never_throws always_resolves backlog boot) in
  omap (λ e, match e with
             | EvNotification p => Some (p_id p)
             | EvConnected => None
             end) (replay_events_where ne_null d)
  = ["rel-3-a@x"; "rel-1-b@x"; "rel-1-a@x"]
  ∧ find_pending_where ne_null d ≡ₚ filter (λ n, opened n = false) d.
Proof.
  intros d.
  destruct (C5_operator_cookie_replays_everyone (λ _, true) d) as (_ & Hperm & _);
    [reflexivity|].
  split; [vm_compute; reflexivity|exact Hperm].
Defined.

Lemma replay_unopened_newest_first_witness :
  let w := serve clock_ms never_throws always_resolves backlog boot in
  let w' := (get_events_resume never_throws "a@x" 7%nat w).1 in
  p_id <$> omap (λ x, match x.2 with
                      | EvNotification p => Some p
                      | EvConnected => None
                      end) (wire w')
  = ["rel-3-a@x"; "rel-1-a@x"]
  ∧ find_pending "a@x" (db w)
    ≡ₚ filter (λ n, userEmail n = "a@x" ∧ opened n = false) (db w)
  ∧ StronglySorted newer_first (find_pending "a@x" (db w)).
Proof.
  intros w w'.
  destruct (replay_unopened_newest_first never_throws "a@x" 7%nat w w')
    as (Hwire & Hperm & Hsorted & _); [vm_compute; reflexivity|].
  split_and!; [vm_compute; reflexivity|exact Hperm|exact Hsorted].
Defined.

(** C6, refuted as stated: one source id and one email, once with a
    userId and once without, and two documents are stored for the pair. *)
Lemma C6_same_source_and_email_stored_twice :
  let w := (receive clock_ms never_throws
              (batch "rel-1" None [target_id "a@x" 7; target "a@x"]) boot).1 in
  (λ n, (sourceNotificationId n, userEmail n, notificationId n)) <$> db w
  = [(Some "rel-1", "a@x", "rel-1-7"); (Some "rel-1", "a@x", "rel-1-a@x")]
  ∧ length (filter (λ n, sourceNotificationId n = Some "rel-1" ∧ userEmail n = "a@x")
              (db w)) = 2%nat.
Proof. vm_compute. done. Qed.

Lemma C6_one_record_per_source_and_key_witness :
  let retried := batch "rel-1" (Some "high") [target_id "b@x" 7] in
  let w := serve clock_ms never_throws always_resolves
             [ReqReceive (batch "rel-1" None [target_id "a@x" 7]);
              ReqReceive retried; ReqReceive retried] boot in
  notificationId <$> db w = ["rel-1-7"]
  ∧ (length (filter (λ n, notificationId n = "rel-1-7") (db w)) ≤ 1)%nat.
Proof.
  intros retried w.
  destruct (C6_one_record_per_source_and_key clock_ms never_throws always_resolves
              [ReqReceive (batch "rel-1" None [target_id "a@x" 7]);
               ReqReceive retried; ReqReceive retried]
              boot (batch "rel-1" None [target_id "a@x" 7]) retried
              (target_id "a@x" 7) (target_id "b@x" 7) "a@x" "b@x" 0 0 0 0)
    as (_ & Hone & _); [apply NoDup_nil_2|reflexivity|reflexivity|].
  split; [vm_compute; reflexivity|exact Hone].
Defined.


Lemma C8_callback_outcome_swallowed_witness :
  let failing := mark_opened clock_ms always_rejects (Some "a@x") (Some "rel-1-a@x")
                   sample_world in
  let working := mark_opened clock_ms always_resolves (Some "a@x") (Some "rel-1-a@x")
                   sample_world in
  failing.2 = MarkOpened (http_projection (open_notification (clock_ms 2) sample_record))
  ∧ working.2 = failing.2
  ∧ db working.1 = db failing.1
  ∧ cb_resolved <$> posts failing.1 = [false].
Proof.
  intros failing working.
  destruct (C8_callback_outcome_swallowed clock_ms always_rejects always_resolves
              "a@x" "rel-1-a@x" sample_world 0 sample_record)
    as (Hr & Hr' & _ & Hdb & _ & _ & _ & Hp);
    [done|done|vm_compute; reflexivity|reflexivity..|].
  split_and!; [exact Hr|exact Hr'|exact Hdb|exact Hp].
Defined.

Lemma C9_read_equals_opened_witness :
  let w := serve clock_ms never_throws always_resolves backlog boot in
  read_is_opened (db w)
  ∧ get_notifications (Some "a@x") w
    = List200 (http_projection <$> find_by_user "a@x" (db w)) 3 2.
Proof.
  intros w.
  destruct (C9_read_equals_opened clock_ms never_throws always_resolves backlog boot)
    as [Hinv _]; [apply Forall_nil_2|].
  split; [exact Hinv|vm_compute; reflexivity].
Defined.

(** C10, refuted as stated: a userId of zero is present and is not used,
    so the two targets do not collide and both are stored; and an email
    that reads like the userId gives one id with and without the userId. *)
Lemma C10_zero_userId_is_not_the_key :
  notificationId
    <$> db (receive clock_ms never_throws
              (batch "rel-1" None [target_id "a@x" 0; target_id "b@x" 0]) boot).1
  = ["rel-1-a@x"; "rel-1-b@x"]
  ∧ notificationId
      <$> db (receive clock_ms never_throws
                (batch "rel-1" None [target_id "a@x" 0; target "a@x"]) boot).1
    = ["rel-1-a@x"]
  ∧ notificationId
      <$> db (receive clock_ms never_throws
                (batch "rel-1" None [target_id "7" 7; target "7"]) boot).1
    = ["rel-1-7"].
Proof. vm_compute. done. Qed.

Lemma C10_recipient_key_collisions_witness :
  let b := batch "rel-1" None [] in
  let r := mkResults [] [] 2 in
  notificationId
    <$> db (foldl (process_target clock_ms never_throws b) (boot, r)
              [target_id "a@x" 7; target_id "b@x" 7]).1
  = ["rel-1-7"]
  ∧ notificationId
      <$> db (foldl (process_target clock_ms never_throws b) (boot, r)
                [target_id "a@x" 7; target "a@x"]).1
    = ["rel-1-7"; "rel-1-a@x"].
Proof.
  intros b r.
  destruct (C10_recipient_key_collisions clock_ms never_throws b (js_int 7) "a@x" "b@x"
              None None boot r)
    as (_ & _ & _ & Hcollide & Hdistinct);
    [vm_compute; reflexivity|done|done|by repeat split; try eexists|].
  destruct Hcollide as [Hdb _]; [apply not_elem_of_nil|].
  destruct Hdistinct as [Hdb' _]; [done|apply not_elem_of_nil..|].
  split.
  - etrans; [exact (f_equal (fmap notificationId) Hdb)|vm_compute; reflexivity].
  - etrans; [exact (f_equal (fmap notificationId) Hdb')|vm_compute; reflexivity].
Defined.

(** * More of the server *)

(** ** The five ways a turn of the dispatch loop can end *)

Section Turn.

Variable clock : nat → Z.
Variable write_throws : Channel → SseEvent → bool.

Lemma process_target_cases b w r t :
  (truthy_str (tu_email t) = false
   ∧ process_target clock write_throws b (w, r) t
     = (w, push_failed
             (mkFailedEntry None (Some (userId_or_unknown (tu_userId t)))
                (Some (or_str (tu_name t) "unknown")) "Missing email" None) r))
  ∨ (∃ email,
      tu_email t = Some email ∧ email ≠ ""
      ∧ let un := userNotification b t email (clock (ticks w)) (clock (S (ticks w))) in
        let w0 := set_ticks (S (S (ticks w))) w in
        let w1 := set_db (db w ++ [un]) w0 in
        let entry reason error :=
          mkFailedEntry (Some email) (inl <$> tu_userId t) (tu_name t) reason error in
        (∃ e, create un (db w) = inl e
              ∧ process_target clock write_throws b (w, r) t
                = (w0, push_failed
                         (entry "Failed to store/send notification"
                            (Some (StoreFailed e))) r))
        ∨ (schema_valid un = true
           ∧ (notificationId un ∉ notificationId <$> db w)
           ∧ ((clients w !! email = None
               ∧ process_target clock write_throws b (w, r) t
                 = (w1, push_failed
                          (entry "User not connected (notification stored for later)"
                             None) r))
              ∨ (∃ ch, clients w !! email = Some ch
                  ∧ ((write_throws ch (EvNotification (sse_projection un)) = true
                      ∧ process_target clock write_throws b (w, r) t
                        = (w1, push_failed
                                 (entry "Failed to store/send notification"
                                    (Some WriteFailed)) r))
                     ∨ (write_throws ch (EvNotification (sse_projection un)) = false
                        ∧ process_target clock write_throws b (w, r) t
                          = (set_wire
                               (wire w ++ [(ch, EvNotification (sse_projection un))]) w1,
                             push_success
                               (mkSuccessEntry email (tu_userId t) (tu_name t)
                                  (notificationId un)) r))))))).
Proof.
  unfold process_target.
  destruct (truthy_str (tu_email t)) eqn:He; cbn [negb]; [|by left].
  right. destruct (tu_email t) as [email|] eqn:Hem; [|discriminate].
  cbn in He. apply bool_decide_eq_true in He.
  exists email. split_and!; [done..|]. cbn [default id db set_ticks].
  destruct (create _ (db w)) as [e|d] eqn:Hc; [left; by exists e|].
  right. apply create_inr in Hc as (-> & Hv & Hfresh).
  split_and!; [done..|]. cbn [clients set_db set_ticks].
  destruct (clients w !! email) as [ch|]; [|by left].
  right. exists ch. split; [done|].
  destruct (write_throws ch _); [left|right]; done.
Qed.

End Turn.

(** Splits the goal along the five endings of the turn it mentions. *)
Ltac turn_cases Heq :=
  match goal with
  | |- context [process_target ?c ?wt ?b (?w, ?r) ?t] =>
      destruct (process_target_cases c wt b w r t)
        as [[_ Heq]
           |(?email & ?Hem & ?He
             & [(?e & _ & Heq)
               |(?Hv & ?Hfresh
                 & [[?Hch Heq]|(?ch & ?Hch & [[?Hw Heq]|[?Hw Heq]])])])];
      rewrite Heq; cbn [fst snd db clients wire listeners posts ticks
                         set_db set_ticks set_wire success failed total
                         push_success push_failed]
  end.

(** ** What a dispatch leaves behind *)

Section DispatchEffects.

Variable clock : nat → Z.
Variable write_throws : Channel → SseEvent → bool.

Lemma document_of_weaken b ts ts' n :
  (∀ t, t ∈ ts → t ∈ ts') → document_of b ts n → document_of b ts' n.
Proof.
  intros Hsub (t & email & now & c & Hin & H). exists t, email, now, c.
  split; [by apply Hsub|done].
Qed.

Lemma process_target_appends b w r t :
  clients (process_target clock write_throws b (w, r) t).1 = clients w
  ∧ listeners (process_target clock write_throws b (w, r) t).1 = listeners w
  ∧ posts (process_target clock write_throws b (w, r) t).1 = posts w
  ∧ ∃ here,
      db (process_target clock write_throws b (w, r) t).1 = db w ++ here
      ∧ Forall (λ n, document_of b [t] n ∧ schema_valid n = true) here
      ∧ (length here ≤ 1)%nat.
Proof.
  turn_cases Heq; (split_and!; [done..|]).
  1,2: exists []; rewrite app_nil_r; split_and!; [done|constructor|cbn; lia].
  all: eexists [_]; split_and!; [done| |cbn; lia].
  all: constructor; [|constructor]; split; [|done].
  all: eexists t, email, _, _; split_and!; [by left|done..].
Qed.

(** The loop does not touch the registry, the listeners or the callbacks;
    it appends documents to the collection, each built for one of the
    targets and accepted by the schema, at most one per target. *)
Lemma foldl_process_target_appends b ts : ∀ w r,
  clients (foldl (process_target clock write_throws b) (w, r) ts).1 = clients w
  ∧ listeners (foldl (process_target clock write_throws b) (w, r) ts).1 = listeners w
  ∧ posts (foldl (process_target clock write_throws b) (w, r) ts).1 = posts w
  ∧ ∃ new,
      db (foldl (process_target clock write_throws b) (w, r) ts).1 = db w ++ new
      ∧ Forall (λ n, document_of b ts n ∧ schema_valid n = true) new
      ∧ (length new ≤ length ts)%nat.
Proof.
  induction ts as [|t ts IH]; intros w r; cbn [foldl].
  - split_and!; [done..|]. exists []. rewrite app_nil_r.
    split_and!; [done|constructor|done].
  - destruct (process_target_appends b w r t)
      as (Hc & Hl & Hp & here & Hd & Hhere & Hlen).
    destruct (process_target clock write_throws b (w, r) t) as [w1 r1].
    cbn [fst] in Hc, Hl, Hp, Hd.
    destruct (IH w1 r1) as (Hc' & Hl' & Hp' & new & Hd' & Hnew & Hlen').
    split_and!; [congruence..|].
    exists (here ++ new). rewrite Hd', Hd, app_assoc. split_and!; [done| |].
    + apply Forall_app. split.
      * eapply Forall_impl; [exact Hhere|]. intros n [Hn Hv]. split; [|done].
        eapply document_of_weaken; [|exact Hn].
        intros x ->%list_elem_of_singleton. by left.
      * eapply Forall_impl; [exact Hnew|]. intros n [Hn Hv]. split; [|done].
        eapply document_of_weaken; [|exact Hn]. intros x Hx. by right.
    + rewrite length_app. cbn. lia.
Qed.






Lemma delivered_stored_grows (d : Collection) new es :
  delivered_stored d es → delivered_stored (d ++ new) es.
Proof.
  intros [Hnd Hall]. split; [done|]. intros e He.
  destruct (Hall e He) as (n & Hin & Hrest). exists n. split; [|done].
  apply elem_of_app. by left.
Qed.

Lemma process_target_delivered_stored b w r t :
  delivered_stored (db w) (success r) →
  delivered_stored (db (process_target clock write_throws b (w, r) t).1)
    (success (process_target clock write_throws b (w, r) t).2).
Proof.
  intros Hr.
  turn_cases Heq; try done; try (by apply delivered_stored_grows).
  destruct Hr as [Hnd Hall]. split.
  - rewrite fmap_app. apply NoDup_app. split_and!; [done| |apply NoDup_singleton].
    intros id (e' & -> & He')%list_elem_of_fmap Hid.
    apply list_elem_of_singleton in Hid. cbn [se_notificationId] in Hid.
    destruct (Hall e' He') as (n & Hin & Hn & _).
    apply Hfresh. rewrite <- Hid, <- Hn. by apply list_elem_of_fmap_2.
  - intros e' [He'|He']%elem_of_app.
    + destruct (Hall e' He') as (n & Hin & Hrest). exists n. split; [|done].
      apply elem_of_app. by left.
    + apply list_elem_of_singleton in He' as ->. eexists. split_and!; [|done..].
      apply elem_of_app. right. by left.
Qed.

Lemma foldl_process_target_delivered_stored b ts : ∀ w r,
  delivered_stored (db w) (success r) →
  delivered_stored (db (foldl (process_target clock write_throws b) (w, r) ts).1)
    (success (foldl (process_target clock write_throws b) (w, r) ts).2).
Proof.
  induction ts as [|t ts IH]; intros w r Hr; cbn [foldl]; [done|].
  pose proof (process_target_delivered_stored b w r t Hr) as Hstep.
  destruct (process_target clock write_throws b (w, r) t) as [w1 r1].
  by apply IH.
Qed.

End DispatchEffects.

(** ** Connecting: what is written and what is kept *)

Section Connect.

Variable write_throws : Channel → SseEvent → bool.

(** What an opened connection leaves: the handshake and the replay on
    the wire, the identity registered, one more listener. *)
Lemma get_events_open email res w w' :
  get_events write_throws (Some email) res w = (w', EventsOpen) →
  email ≠ ""
  ∧ wire w' = wire w ++ (res, EvConnected)
                :: ((λ e, (res, e)) <$> replay_events email (db w))
  ∧ clients w' = <[email := res]> (clients w)
  ∧ listeners w' = listeners w ++ [(res, email)]
  ∧ db w' = db w ∧ posts w' = posts w ∧ ticks w' = ticks w.
Proof.
  unfold get_events. intros H.
  destruct (truthy_str (Some email)) eqn:He; [|discriminate].
  cbn in He. apply bool_decide_eq_true in He. cbn [negb] in H.
  destruct (write_throws res EvConnected); [discriminate|].
  cbn [default id db clients wire set_wire set_clients] in H.
  destruct (write_each _ _ _ _) as [out finished] eqn:Hw.
  destruct finished; [|discriminate].
  injection H as <-.
  apply write_each_finished in Hw as ->.
  cbn. rewrite <- app_assoc. done.
Qed.


End Connect.

(** ** The answer to a dispatch and the state it leaves *)

Section DispatchAnswer.

Variable clock : nat → Z.
Variable write_throws : Channel → SseEvent → bool.

Lemma document_of_fields b ts n :
  document_of b ts n →
  read n = false ∧ opened n = false ∧ openedAt n = None
  ∧ sourceNotificationId n = rb_notificationId b
  ∧ title n = default "" (rb_title b) ∧ content n = default "" (rb_content b)
  ∧ notificationId n
    = derive_notificationId (rb_notificationId b) (userId n) (userEmail n).
Proof. by intros (t & email & now & c & _ & _ & _ & ->). Qed.

(** A dispatch only appends.  Whatever the batch, the handler leaves the
    registry, the close listeners and the callbacks as they were and every
    stored document in place; what it adds to the collection is at most
    one document per target, each unread and unopened, carrying the source
    id of the batch, addressed to the identity of one of its targets and
    accepted by the schema. *)
Theorem receive_only_appends b w :
  clients (receive clock write_throws b w).1 = clients w
  ∧ listeners (receive clock write_throws b w).1 = listeners w
  ∧ posts (receive clock write_throws b w).1 = posts w
  ∧ ∃ new,
      db (receive clock write_throws b w).1 = db w ++ new
      ∧ (length new ≤ length (targets_of b))%nat
      ∧ Forall (λ n,
                  read n = false ∧ opened n = false ∧ openedAt n = None
                  ∧ sourceNotificationId n = rb_notificationId b
                  ∧ schema_valid n = true
                  ∧ ∃ t, t ∈ targets_of b ∧ tu_email t = Some (userEmail n)
                         ∧ userId n = tu_userId t) new.
Proof.
  destruct (receive_world clock write_throws b w) as (ts & rest & r0 & Hts & ->).
  destruct (foldl_process_target_appends clock write_throws b ts w r0)
    as (Hc & Hl & Hp & new & Hd & Hnew & Hlen).
  split_and!; [done..|]. exists new. split_and!; [done| |].
  { rewrite Hts, length_app. lia. }
  eapply Forall_impl; [exact Hnew|]. intros n [Hdoc Hv].
  destruct (document_of_fields _ _ _ Hdoc) as (? & ? & ? & ? & _).
  split_and!; [done..|].
  destruct Hdoc as (t' & email & now & c & Hin & Hem & _ & ->).
  exists t'. split_and!; [|done..]. rewrite Hts. apply elem_of_app. by left.
Qed.


(** No record is reported delivered twice: the ids on the delivered list
    are pairwise distinct, and each names a document of its identity that
    is in the collection when the answer is sent. *)
Theorem receive_delivered_distinct_and_stored b w w' k r :
  receive clock write_throws b w = (w', Receive200 k r) →
  NoDup (se_notificationId <$> success r)
  ∧ ∀ e, e ∈ success r →
      ∃ n, n ∈ db w' ∧ notificationId n = se_notificationId e
           ∧ userEmail n = se_email e.
Proof.
  intros (ts & _ & Hfold & _)%receive_200.
  pose proof (foldl_process_target_delivered_stored clock write_throws b ts w
                (mkResults [] [] (length ts))) as Hinv.
  rewrite Hfold in Hinv. cbn [fst snd success] in *. apply Hinv.
  split; [constructor|]. by intros e ?%elem_of_nil.
Qed.


End DispatchAnswer.

(** ** Requests without an identity *)

(** A scoped endpoint called without the [userEmail] cookie (or with an
    empty one) answers 401 and leaves the state alone; for mark-opened
    this comes before the check of the body. *)
Theorem unauthenticated_no_effect clock write_throws post_resolves users
    cookie res nid w :
  truthy_str cookie = false →
  get_events write_throws cookie res w = (w, Events401)
  ∧ mark_opened clock post_resolves cookie nid w = (w, Mark401)
  ∧ get_notifications cookie w = List401
  ∧ get_me users cookie = Me401NotAuthenticated.
Proof.
  intros H. unfold get_events, mark_opened, get_notifications, get_me.
  by rewrite H.
Qed.

(** ** Mark-opened: what it refuses and what it touches *)

Section MarkOpenedScope.

Variable clock : nat → Z.
Variable post_resolves : string → TrackingPayload → bool.

Lemma findOne_from_None nid email (d : Collection) : ∀ k,
  (∀ n, n ∈ d → notificationId n = nid → userEmail n ≠ email) →
  findOne_from k nid email d = None.
Proof.
  induction d as [|m d IH]; intros k H; [done|]. cbn.
  destruct (bool_decide (notificationId m = nid) && bool_decide (userEmail m = email))
    eqn:Hm.
  - apply andb_true_iff in Hm as [H1%bool_decide_eq_true H2%bool_decide_eq_true].
    destruct (H m); [by left|done..].
  - apply IH. intros n Hn. apply H. by right.
Qed.

Lemma findOne_where_from_text nid email (d : Collection) : ∀ k,
  findOne_where_from k nid (CookieText email) d = findOne_from k nid email d.
Proof. induction d as [|m d IH]; intros k; [done|]. cbn. by rewrite IH. Qed.

(** For a string, the lookup for the cookie as parsed is the lookup of
    the caller's record. *)
Lemma findOne_where_text nid email (d : Collection) :
  findOne_where nid (CookieText email) d = findOne nid email d.
Proof. apply findOne_where_from_text. Qed.

(** For a cookie met by every address the lookup does not look at the
    owner: it returns the first record with the id, whoever owns it. *)
Lemma findOne_where_from_any nid matches (d : Collection) :
  (∀ stored, matches stored = true) →
  ∀ k n, n ∈ d → notificationId n = nid →
         ∃ i m, findOne_where_from k nid (CookieOperators matches) d = Some (i, m)
                ∧ notificationId m = nid.
Proof.
  intros Hall. induction d as [|x d IH]; intros k n Hn Hid.
  - by apply elem_of_nil in Hn.
  - cbn. rewrite Hall, andb_true_r.
    case_bool_decide as Hx; [by eauto|].
    apply elem_of_cons in Hn as [->|Hn]; [done|]. by eapply IH.
Qed.

(** For a cookie and an id that are strings: a call without an id is a
    400, and a call with an id that no record of the caller carries
    (unknown, or a record of somebody else) is a 404; neither changes
    anything. *)
Theorem mark_opened_rejections email w :
  email ≠ "" →
  (∀ nid, truthy_str nid = false →
     mark_opened clock post_resolves (Some email) nid w = (w, Mark400))
  ∧ (∀ id, id ≠ "" →
       (∀ n, n ∈ db w → notificationId n = id → userEmail n ≠ email) →
       mark_opened clock post_resolves (Some email) (Some id) w = (w, Mark404)).
Proof.
  intros He. split.
  - intros nid Hn. unfold mark_opened. cbn.
    rewrite bool_decide_eq_true_2 by done. cbn. by rewrite Hn.
  - intros id Hid Hnone. unfold mark_opened, findOne. cbn.
    rewrite !bool_decide_eq_true_2 by done. cbn.
    by rewrite findOne_from_None.
Qed.

Lemma truthy_str_nonempty x : truthy_str x = true → default "" x ≠ "".
Proof. destruct x as [s|]; cbn; [|done]. by intros ?%bool_decide_eq_true. Qed.

(** Either the call changes nothing at all, or it is the first opening
    of a record of the caller. *)
Lemma mark_opened_effect cookie nid w :
  (mark_opened clock post_resolves cookie nid w).1 = w
  ∨ ∃ i n,
      cookie = Some (userEmail n) ∧ nid = Some (notificationId n)
      ∧ db w !! i = Some n ∧ opened n = false
      ∧ db (mark_opened clock post_resolves cookie nid w).1
        = <[i := open_notification (clock (ticks w)) n]> (db w)
      ∧ clients (mark_opened clock post_resolves cookie nid w).1 = clients w
      ∧ wire (mark_opened clock post_resolves cookie nid w).1 = wire w
      ∧ listeners (mark_opened clock post_resolves cookie nid w).1 = listeners w
      ∧ (length (posts (mark_opened clock post_resolves cookie nid w).1)
         ≤ S (length (posts w)))%nat.
Proof.
  destruct (truthy_str cookie) eqn:Hc;
    [|left; unfold mark_opened; by rewrite Hc].
  destruct (truthy_str nid) eqn:Hn;
    [|left; unfold mark_opened; by rewrite Hc, Hn].
  pose proof (truthy_str_nonempty _ Hc) as Hc'.
  pose proof (truthy_str_nonempty _ Hn) as Hn'.
  rewrite (truthy_str_Some _ Hc), (truthy_str_Some _ Hn).
  destruct (findOne (default "" nid) (default "" cookie) (db w)) as [[i n]|] eqn:Hf;
    [|left; unfold mark_opened; cbn; rewrite !bool_decide_eq_true_2 by done; cbn;
      by rewrite Hf].
  destruct (opened n) eqn:Ho; [left; by erewrite mark_opened_already|].
  right. exists i, n.
  destruct (mark_opened_first clock post_resolves _ _ w i n Hc' Hn' Hf Ho)
    as (_ & Hdb & Hcl & Hwi & _ & Hp).
  pose proof (findOne_lookup _ _ _ _ _ Hf) as (Hi & Hid & Hem).
  split_and!;
    [by rewrite Hem|by rewrite Hid|done|done|exact Hdb|exact Hcl|exact Hwi| |].
  - unfold mark_opened. cbn. rewrite !bool_decide_eq_true_2 by done. cbn.
    rewrite Hf, Ho. cbn. by destruct (_ && _).
  - rewrite Hp, length_app. destruct (_ && _); cbn; lia.
Qed.

(** For a cookie and an id that are strings or absent, and a call that
    runs through: the call changes at most one document, and only a
    record of the caller that carries the id of the body and was not
    opened: that one is replaced by its opened version (every other field
    as before); all other positions of the collection, the registry and
    the channels stay as they were. *)
Theorem mark_opened_only_own_record cookie nid w :
  length (db (mark_opened clock post_resolves cookie nid w).1) = length (db w)
  ∧ clients (mark_opened clock post_resolves cookie nid w).1 = clients w
  ∧ wire (mark_opened clock post_resolves cookie nid w).1 = wire w
  ∧ listeners (mark_opened clock post_resolves cookie nid w).1 = listeners w
  ∧ (∃ i, ∀ j, j ≠ i →
       db (mark_opened clock post_resolves cookie nid w).1 !! j = db w !! j)
  ∧ ∀ j n, db w !! j = Some n →
      db (mark_opened clock post_resolves cookie nid w).1 !! j = Some n
      ∨ (db (mark_opened clock post_resolves cookie nid w).1 !! j
           = Some (open_notification (clock (ticks w)) n)
         ∧ opened n = false
         ∧ cookie = Some (userEmail n)
         ∧ nid = Some (notificationId n)).
Proof.
  destruct (mark_opened_effect cookie nid w)
    as [->|(i & n & Hc & Hn & Hi & Ho & -> & -> & -> & -> & _)].
  - split_and!; [done..|by exists 0%nat|by left].
  - split_and!; [apply length_insert|done..| |].
    + exists i. intros j Hj. by apply list_lookup_insert_ne.
    + intros j m Hj. destruct (decide (j = i)) as [->|Hne].
      * right. assert (m = n) as -> by congruence.
        split_and!; [|done..].
        apply list_lookup_insert_eq. by eapply lookup_lt_Some.
      * left. by rewrite list_lookup_insert_ne.
Qed.


End MarkOpenedScope.

(** ** More invariants of every run *)

Section RunInvariants.

Variable clock : nat → Z.
Variable write_throws : Channel → SseEvent → bool.
Variable post_resolves : string → TrackingPayload → bool.

Lemma get_events_posts cookie res w :
  posts (get_events write_throws cookie res w).1 = posts w.
Proof.
  unfold get_events.
  destruct (negb (truthy_str cookie)); [done|].
  destruct (write_throws res EvConnected); [done|].
  destruct (write_each _ _ _ _) as [out [|]]; done.
Qed.

Lemma foldl_on_close_posts (ls : list (Channel * string)) : ∀ w,
  posts (foldl (λ w' l, on_close l.2 w') w ls) = posts w.
Proof. induction ls as [|l ls IH]; intros w; [done|]. cbn [foldl]. by rewrite IH. Qed.

Lemma req_close_posts res w : posts (req_close res w) = posts w.
Proof. unfold req_close. cbn. apply foldl_on_close_posts. Qed.

Lemma receive_db_appends b w :
  posts (receive clock write_throws b w).1 = posts w
  ∧ ∃ new,
      db (receive clock write_throws b w).1 = db w ++ new
      ∧ Forall (λ n, document_of b (targets_of b) n ∧ schema_valid n = true) new.
Proof.
  destruct (receive_world clock write_throws b w) as (ts & rest & r0 & Hts & ->).
  destruct (foldl_process_target_appends clock write_throws b ts w r0)
    as (_ & _ & Hp & new & Hd & Hnew & _).
  split; [done|]. exists new. split; [done|].
  eapply Forall_impl; [exact Hnew|]. intros n [Hdoc Hv]. split; [|done].
  eapply document_of_weaken; [|exact Hdoc].
  intros x Hx. rewrite Hts. apply elem_of_app. by left.
Qed.

(** A property of documents that holds of the documents dispatch builds
    and survives opening holds of the whole collection along any run. *)
Lemma serve_documents (P : Notification → Prop) :
  (∀ b ts n, document_of b ts n → schema_valid n = true → P n) →
  (∀ now n, P n → P (open_notification now n)) →
  ∀ rs w, Forall P (db w) →
          Forall P (db (serve clock write_throws post_resolves rs w)).
Proof.
  intros Hnew Hopen. induction rs as [|rq rs IH]; intros w Hw; [done|].
  unfold serve. cbn [foldl]. apply IH.
  destruct rq as [cookie res|res|body|cookie nid|cookie]; cbn [handle].
  - by rewrite get_events_db.
  - by rewrite req_close_db.
  - destruct (receive_db_appends body w) as (_ & new & -> & Hn).
    apply Forall_app. split; [done|].
    eapply Forall_impl; [exact Hn|]. intros n [Hd Hv]. by eapply Hnew.
  - destruct (mark_opened_db clock post_resolves cookie nid w)
      as [->|(i & n & Hf & _ & ->)]; [done|].
    apply findOne_lookup in Hf as (Hi & _).
    apply Forall_insert; [done|]. apply Hopen.
    rewrite Forall_forall in Hw. apply Hw. by eapply list_elem_of_lookup_2.
  - done.
Qed.

Lemma schema_valid_open now n :
  schema_valid (open_notification now n) = schema_valid n.
Proof. done. Qed.

Lemma priority_enum_spec p :
  priority_enum p = true ↔ p = "high" ∨ p = "medium" ∨ p = "low".
Proof.
  unfold priority_enum. rewrite !orb_true_iff, !bool_decide_eq_true. tauto.
Qed.

Lemma severity_enum_spec s :
  severity_enum s = true ↔ s = "error" ∨ s = "warning" ∨ s = "info".
Proof.
  unfold severity_enum. rewrite !orb_true_iff, !bool_decide_eq_true. tauto.
Qed.

(** The schema holds of every stored document, for ever.  If the
    collection satisfies the validators, it still does after any sequence
    of requests: each document has a priority among high, medium, low, a
    severity among error, warning, info, a non-empty id, owner, title and
    content, and a source id. *)
Theorem stored_documents_valid rs w :
  valid_documents (db w) →
  Forall (λ n,
            (priority n = "high" ∨ priority n = "medium" ∨ priority n = "low")
            ∧ (severity n = "error" ∨ severity n = "warning" ∨ severity n = "info")
            ∧ notificationId n ≠ "" ∧ userEmail n ≠ ""
            ∧ title n ≠ "" ∧ content n ≠ ""
            ∧ is_Some (sourceNotificationId n))
    (db (serve clock write_throws post_resolves rs w)).
Proof.
  intros Hw.
  eapply Forall_impl;
    [apply (serve_documents (λ n, schema_valid n = true)); [done|done|exact Hw]|].
  intros n Hv. unfold schema_valid in Hv.
  rewrite !andb_true_iff, !bool_decide_eq_true in Hv.
  destruct Hv as ((((((? & ?) & ?) & ?) & ?) & ?%priority_enum_spec)
                  & ?%severity_enum_spec).
  done.
Qed.

Lemma document_severity_fits b ts n :
  document_of b ts n → schema_valid n = true → severity_fits n.
Proof.
  intros (t & email & now & c & _ & _ & _ & ->) Hv.
  unfold schema_valid in Hv. rewrite !andb_true_iff in Hv.
  destruct Hv as [[_ Hp%priority_enum_spec] _].
  unfold severity_fits. cbn in *.
  destruct (rb_priority b) as [p|]; cbn in *; [|by split_and!].
  case_bool_decide as Hne; [|subst p; by split_and!].
  destruct Hp as [->| [->| ->]]; by split_and!.
Qed.

(** Severity follows priority on every stored document, as far as the
    code makes it: along any run, a severity of error goes with priority
    high and only with it, a severity of warning only with priority
    medium, and priority low always with severity info. *)
Theorem stored_severity_fits rs w :
  Forall severity_fits (db w) →
  Forall severity_fits (db (serve clock write_throws post_resolves rs w)).
Proof.
  apply serve_documents; [apply document_severity_fits|done].
Qed.

End RunInvariants.

(** ** Reading back: the list, the replay, the recipient's own record *)

Section ReadingBack.

Variable clock : nat → Z.
Variable write_throws : Channel → SseEvent → bool.
Variable post_resolves : string → TrackingPayload → bool.

Lemma find_by_user_where_text email (d : Collection) :
  find_by_user_where (CookieText email) d = find_by_user email d.
Proof.
  unfold find_by_user_where, find_by_user. f_equal.
  apply list_filter_iff. intros n. cbn. by rewrite bool_decide_eq_true.
Qed.

(** For a string, the handler for the cookie as parsed is the handler
    for the string. *)
Lemma get_notifications_where_text email w :
  get_notifications_where (Some (CookieText email)) w
  = get_notifications (Some email) w.
Proof.
  unfold get_notifications_where, get_notifications. cbn.
  by rewrite find_by_user_where_text.
Qed.

(** With a truthy cookie the list endpoint answers with the documents
    that meet the condition the cookie stands for, the most recently
    created first: for [{"$ne": null}] these are the documents of
    everybody. *)
Lemma list_records_by_cookie c w :
  truthy_cookie (Some c) = true →
  ∃ docs,
    get_notifications_where (Some c) w
    = List200 (http_projection <$> docs) (length docs)
        (length (filter (λ n, read n = false) docs))
    ∧ docs ≡ₚ filter (λ n, cookie_condition c (userEmail n) = true) (db w)
    ∧ StronglySorted newer_first docs.
Proof.
  intros Hc. exists (find_by_user_where c (db w)).
  unfold get_notifications_where. rewrite Hc. cbn [negb].
  rewrite length_fmap, length_filter_unread_projection.
  unfold find_by_user_where, sort_createdAt_desc.
  split_and!; [done|apply merge_sort_Permutation|].
  apply StronglySorted_merge_sort; apply _.
Qed.

(** For a cookie that is a string, the list endpoint shows the caller's
    records and nothing else: the projections, in order, of the documents
    whose owner is the caller, each once, the most recently created
    first; [count] is their number and [unreadCount] the number of those
    not read. *)
Theorem list_own_records_newest_first email w ps c u :
  get_notifications_where (Some (CookieText email)) w = List200 ps c u →
  email ≠ ""
  ∧ c = length ps
  ∧ (u ≤ c)%nat
  ∧ ∃ docs,
      ps = http_projection <$> docs
      ∧ docs ≡ₚ filter (λ n, userEmail n = email) (db w)
      ∧ StronglySorted newer_first docs
      ∧ u = length (filter (λ n, read n = false) docs).
Proof.
  rewrite get_notifications_where_text.
  unfold get_notifications. intros H.
  destruct (truthy_str (Some email)) eqn:He; [|discriminate].
  cbn in He. apply bool_decide_eq_true in He. cbn [negb default id] in H.
  injection H as <- <- <-.
  split_and!; [done..|apply length_filter|].
  exists (find_by_user email (db w)).
  unfold find_by_user, sort_createdAt_desc.
  split_and!; [done|apply merge_sort_Permutation| |].
  - apply StronglySorted_merge_sort; apply _.
  - apply length_filter_unread_projection.
Qed.

Lemma unique_ids_same (d : Collection) m n :
  unique_ids d → m ∈ d → n ∈ d → notificationId m = notificationId n → m = n.
Proof.
  unfold unique_ids. induction d as [|x d IH]; intros Hd Hm Hn Hid.
  - by apply elem_of_nil in Hm.
  - rewrite fmap_cons in Hd. apply NoDup_cons in Hd as [Hx Hd].
    apply elem_of_cons in Hm as [->|Hm]; apply elem_of_cons in Hn as [->|Hn].
    + done.
    + destruct Hx. rewrite Hid. by apply list_elem_of_fmap_2.
    + destruct Hx. rewrite <- Hid. by apply list_elem_of_fmap_2.
    + by apply IH.
Qed.

Lemma findOne_from_finds nid email (d : Collection) : ∀ k n,
  n ∈ d → notificationId n = nid → userEmail n = email →
  ∃ i m, findOne_from k nid email d = Some (i, m).
Proof.
  induction d as [|x d IH]; intros k n Hn Hid Hem.
  - by apply elem_of_nil in Hn.
  - cbn. destruct (bool_decide (notificationId x = nid) && bool_decide (userEmail x = email))
      eqn:Hx; [eauto|].
    apply elem_of_cons in Hn as [->|Hn]; [|by eapply IH].
    rewrite !bool_decide_eq_true_2 in Hx by done. discriminate.
Qed.

Lemma findOne_unique (d : Collection) n :
  unique_ids d → n ∈ d →
  ∃ i, findOne (notificationId n) (userEmail n) d = Some (i, n).
Proof.
  intros Hd Hn.
  destruct (findOne_from_finds (notificationId n) (userEmail n) d 0 n Hn eq_refl eq_refl)
    as (i & m & Hf).
  exists i. unfold findOne. rewrite Hf.
  apply findOne_from_lookup in Hf as (_ & Hi & Hid & _).
  do 2 f_equal. eapply unique_ids_same; [done| |done..].
  by eapply list_elem_of_lookup_2.
Qed.

(** What is stored can be opened by its recipient.  In a collection with
    unique ids, the owner of an unopened record who sends the record's id
    gets back the projection of that very record, opened and stamped with
    the current time. *)
Theorem recipient_opens_own_record w n :
  unique_ids (db w) → n ∈ db w →
  userEmail n ≠ "" → notificationId n ≠ "" → opened n = false →
  (mark_opened clock post_resolves (Some (userEmail n)) (Some (notificationId n)) w).2
  = MarkOpened (http_projection (open_notification (clock (ticks w)) n))
  ∧ open_notification (clock (ticks w)) n
    ∈ db (mark_opened clock post_resolves (Some (userEmail n))
            (Some (notificationId n)) w).1.
Proof.
  intros Hd Hn He Hid Ho.
  destruct (findOne_unique _ _ Hd Hn) as (i & Hf).
  destruct (mark_opened_first clock post_resolves _ _ w i n He Hid Hf Ho)
    as (Hr & Hdb & _).
  split; [done|]. rewrite Hdb.
  apply findOne_lookup in Hf as (Hi & _).
  eapply list_elem_of_lookup_2. apply list_lookup_insert_eq.
  by eapply lookup_lt_Some.
Qed.

(** An opened record is never replayed.  Once a record is opened, in a
    collection with unique ids, whatever requests follow, the replay of
    any later connection carries no notification with the id of that
    record. *)
Theorem opened_record_never_replayed w n rs cookie res w' added p :
  unique_ids (db w) → n ∈ db w → opened n = true →
  get_events write_throws cookie res (serve clock write_throws post_resolves rs w)
  = (w', EventsOpen) →
  wire w' = wire (serve clock write_throws post_resolves rs w) ++ added →
  (res, EvNotification p) ∈ added →
  p_id p ≠ notificationId n.
Proof.
  intros Hd Hn Ho Hopen Hwire Hp Hid.
  apply list_elem_of_lookup in Hn as [i Hi].
  pose proof (serve_db_steps clock write_throws post_resolves rs w) as Hsteps.
  pose proof (rtc_db_step_unique_ids _ _ Hsteps Hd) as Hd'.
  pose proof (rtc_db_step_frozen _ _ _ _ Hsteps Hi Ho) as Hi'.
  destruct cookie as [email|];
    [|unfold get_events in Hopen; cbn in Hopen; discriminate].
  apply get_events_open in Hopen as (_ & Hw & _).
  rewrite Hw in Hwire. apply app_inv_head in Hwire. subst added.
  apply elem_of_cons in Hp as [[=]|Hp].
  apply list_elem_of_fmap in Hp as (ev & [= <-] & Hev).
  unfold replay_events in Hev.
  apply list_elem_of_fmap in Hev as (m & [= ->] & Hm).
  destruct (find_pending_spec email
              (db (serve clock write_throws post_resolves rs w))) as [Hperm _].
  rewrite Hperm in Hm. apply list_elem_of_filter in Hm as [[_ Hmo] Hm].
  cbn in Hid.
  assert (m = n) as ->;
    [eapply unique_ids_same; [exact Hd'|done| |done]; by eapply list_elem_of_lookup_2|].
  congruence.
Qed.

End ReadingBack.

(** ** The registry seen from outside *)

Section RegistryUse.

Variable clock : nat → Z.
Variable write_throws : Channel → SseEvent → bool.

(** A connection attempt, however it ends, changes no entry of the
    registry but the one of its own identity, and neither the collection
    nor the callbacks. *)
Theorem connect_touches_own_entry cookie res w :
  db (get_events write_throws cookie res w).1 = db w
  ∧ posts (get_events write_throws cookie res w).1 = posts w
  ∧ ∀ e, cookie ≠ Some e →
      clients (get_events write_throws cookie res w).1 !! e = clients w !! e.
Proof.
  split_and!; [apply get_events_db|apply get_events_posts|].
  intros e He. unfold get_events.
  destruct (truthy_str cookie) eqn:Hc; cbn [negb]; [|done].
  destruct (write_throws res EvConnected); [done|].
  destruct (write_each _ _ _ _) as [out [|]]; cbn;
    (apply lookup_insert_ne; intros <-; apply He; by apply truthy_str_Some).
Qed.

(** The health check counts identities, not connections.  After a
    connection is opened, [connectedClients] is one more than before if the
    identity had no entry, and the same as before if it had one (the new
    channel takes the place of the old one). *)
Theorem health_counts_identities email res w w' :
  get_events write_throws (Some email) res w = (w', EventsOpen) →
  clients w' !! email = Some res
  ∧ h_connectedClients (health clock w').2
    = match clients w !! email with
      | Some _ => size (clients w)
      | None => S (size (clients w))
      end.
Proof.
  intros (_ & _ & Hc & _)%get_events_open. cbn. rewrite Hc.
  split; [apply lookup_insert_eq|].
  rewrite map_size_insert. by destruct (clients w !! email).
Qed.

(** What the second stretch of the events handler leaves when the stream
    stays open. *)
Lemma get_events_resume_open email res w w1 :
  get_events_resume write_throws email res w = (w1, EventsOpen) →
  clients w1 = clients w
  ∧ listeners w1 = listeners w ++ [(res, email)]
  ∧ db w1 = db w ∧ posts w1 = posts w.
Proof.
  unfold get_events_resume. intros H.
  destruct (write_each _ _ _ _) as [out [|]]; [|discriminate].
  by injection H as <-.
Qed.

Lemma get_events_begin_suspended email res w w1 :
  get_events_begin write_throws (Some email) res w = (w1, None) →
  email ≠ ""
  ∧ clients w1 = <[email := res]> (clients w)
  ∧ listeners w1 = listeners w
  ∧ wire w1 = wire w ++ [(res, EvConnected)]
  ∧ db w1 = db w.
Proof.
  unfold get_events_begin. intros H.
  destruct (truthy_str (Some email)) eqn:He; [|discriminate].
  cbn in He. apply bool_decide_eq_true in He. cbn [negb] in H.
  destruct (write_throws res EvConnected); [discriminate|].
  by injection H as <-.
Qed.

Lemma req_close_no_listener res w :
  (∀ e, (res, e) ∉ listeners w) → req_close res w = w.
Proof.
  intros Hnone. unfold req_close.
  assert (filter (λ l : Channel * string, l.1 = res) (listeners w) = []) as ->.
  { induction (listeners w) as [|[ch e] ls IH]; [done|].
    rewrite filter_cons_False.
    - apply IH. intros e' Hin. apply (Hnone e'). by right.
    - cbn. intros ->. apply (Hnone e). by left. }
  assert (filter (λ l : Channel * string, l.1 ≠ res) (listeners w) = listeners w) as ->.
  { induction (listeners w) as [|[ch e] ls IH]; [done|].
    rewrite filter_cons_True.
    - f_equal. apply IH. intros e' Hin. apply (Hnone e'). by right.
    - cbn. intros ->. apply (Hnone e). by left. }
  by destruct w.
Qed.

(** Close after the listener is registered.  When the handler of a
    connection has resumed after its query, replayed and registered its
    close listener, the close of the connection leaves its identity
    without an entry and the channel without a listener; the entries of
    the identities the channel never registered are as they were when the
    handler resumed. *)
Theorem connect_then_close email res w w1 :
  get_events_resume write_throws email res w = (w1, EventsOpen) →
  clients (req_close res w1) !! email = None
  ∧ (∀ e, (res, e) ∉ listeners (req_close res w1))
  ∧ ∀ e, e ≠ email → (res, e) ∉ listeners w →
      clients (req_close res w1) !! e = clients w !! e.
Proof.
  intros (Hc & Hl & _)%get_events_resume_open.
  unfold req_close. cbn [clients listeners set_listeners].
  split_and!.
  - rewrite foldl_on_close_clients, bool_decide_eq_true_2; [done|].
    apply listener_of. rewrite Hl. apply elem_of_app. right. by left.
  - intros e [Hne _]%list_elem_of_filter. by apply Hne.
  - intros e He Hnot.
    rewrite foldl_on_close_clients, bool_decide_eq_false_2.
    + by rewrite Hc.
    + rewrite listener_of, Hl. intros [?|Hin]%elem_of_app; [done|].
      apply list_elem_of_singleton in Hin. congruence.
Qed.

(** Close before the listener is registered.  The connection is stored
    before the replay query and its close listener is registered after
    it.  A connection that closes while the handler waits for the query
    has no listener to run: the close changes nothing, and the identity
    keeps its entry for the closed channel, also after the handler has
    resumed, however the replay ends. *)
Theorem close_during_query_keeps_entry email res w w1 :
  get_events_begin write_throws (Some email) res w = (w1, None) →
  (∀ e, (res, e) ∉ listeners w) →
  clients w1 !! email = Some res
  ∧ req_close res w1 = w1
  ∧ ∀ w2 answer,
      get_events_resume write_throws email res (req_close res w1) = (w2, answer) →
      clients w2 !! email = Some res.
Proof.
  intros (_ & Hc & Hl & _)%get_events_begin_suspended Hnone.
  assert (clients w1 !! email = Some res) as Hreg
    by (rewrite Hc; apply lookup_insert_eq).
  assert (req_close res w1 = w1) as Hclose
    by (apply req_close_no_listener; by rewrite Hl).
  split_and!; [done..|].
  intros w2 answer. rewrite Hclose. unfold get_events_resume.
  destruct (write_each _ _ _ _) as [out [|]]; by intros [= <- _].
Qed.

(** A connection that fails.  If the handshake cannot be written,
    nothing at all has changed.  If a write of the replay throws, the
    identity is registered already but no close listener is: the close of
    that connection then leaves the entry in the registry. *)
Theorem failed_connect_leaves_entry email res w w' :
  get_events write_throws (Some email) res w = (w', Events500) →
  db w' = db w ∧ listeners w' = listeners w
  ∧ (write_throws res EvConnected = true → w' = w)
  ∧ (write_throws res EvConnected = false →
       clients w' !! email = Some res
       ∧ ((res, email) ∉ listeners w →
          clients (req_close res w') !! email = Some res)).
Proof.
  unfold get_events. intros H.
  destruct (truthy_str (Some email)) eqn:He; [|discriminate]. cbn [negb] in H.
  destruct (write_throws res EvConnected).
  - injection H as <-. split_and!; [done..|discriminate].
  - cbn [default id db clients wire set_wire set_clients] in H.
    destruct (write_each _ _ _ _) as [out [|]]; [discriminate|].
    injection H as <-. cbn. split_and!; [done|done|discriminate|].
    intros _. split; [apply lookup_insert_eq|].
    intros Hnot. unfold req_close. cbn [clients listeners set_listeners].
    rewrite foldl_on_close_clients, bool_decide_eq_false_2.
    + cbn. apply lookup_insert_eq.
    + by rewrite listener_of.
Qed.

End RegistryUse.

(** ** Sessions *)

Section Sessions.






End Sessions.

(** * The further statements on sample runs *)


Lemma receive_delivered_distinct_and_stored_witness :
  NoDup (se_notificationId <$> success pair_results)
  ∧ ∀ e, e ∈ success pair_results →
      ∃ n, n ∈ db (receive clock_ms never_throws pair_batch pair_world).1
           ∧ notificationId n = se_notificationId e
           ∧ userEmail n = se_email e.
Proof.
  apply (receive_delivered_distinct_and_stored clock_ms never_throws pair_batch
           pair_world (receive clock_ms never_throws pair_batch pair_world).1
           1 pair_results).
  vm_compute. reflexivity.
Defined.


Lemma unauthenticated_no_effect_witness :
  get_events never_throws None 3%nat sample_world = (sample_world, Events401)
  ∧ mark_opened clock_ms always_resolves None (Some "rel-1-a@x") sample_world
    = (sample_world, Mark401)
  ∧ get_notifications None sample_world = List401
  ∧ get_me sample_users None = Me401NotAuthenticated.
Proof.
  apply (unauthenticated_no_effect clock_ms never_throws always_resolves sample_users
           None 3%nat (Some "rel-1-a@x") sample_world).
  reflexivity.
Defined.

Lemma mark_opened_rejections_witness :
  mark_opened clock_ms always_resolves (Some "b@x") None sample_world
  = (sample_world, Mark400)
  ∧ mark_opened clock_ms always_resolves (Some "b@x") (Some "rel-1-a@x") sample_world
    = (sample_world, Mark404).
Proof.
  destruct (mark_opened_rejections clock_ms always_resolves "b@x" sample_world)
    as [H400 H404]; [done|].
  split; [by apply H400|].
  apply H404; [done|].
  intros n [->|Hn%elem_of_nil]%elem_of_cons _; done.
Defined.


Lemma stored_documents_valid_witness :
  Forall (λ n,
            (priority n = "high" ∨ priority n = "medium" ∨ priority n = "low")
            ∧ (severity n = "error" ∨ severity n = "warning" ∨ severity n = "info")
            ∧ notificationId n ≠ "" ∧ userEmail n ≠ ""
            ∧ title n ≠ "" ∧ content n ≠ ""
            ∧ is_Some (sourceNotificationId n))
    (db (serve clock_ms never_throws always_resolves backlog boot)).
Proof.
  apply (stored_documents_valid clock_ms never_throws always_resolves backlog boot).
  apply Forall_nil_2.
Defined.

Lemma stored_severity_fits_witness :
  Forall severity_fits (db (serve clock_ms never_throws always_resolves backlog boot)).
Proof.
  apply (stored_severity_fits clock_ms never_throws always_resolves backlog boot).
  apply Forall_nil_2.
Defined.

Lemma list_own_records_newest_first_witness :
  let w := serve clock_ms never_throws always_resolves backlog boot in
  ∃ docs,
    notificationId <$> docs = ["rel-3-a@x"; "rel-2-a@x"; "rel-1-a@x"]
    ∧ docs ≡ₚ filter (λ n, userEmail n = "a@x") (db w)
    ∧ StronglySorted newer_first docs.
Proof.
  intros w.
  destruct (list_own_records_newest_first "a@x" w
              (http_projection <$> find_by_user "a@x" (db w)) 3 2)
    as (_ & _ & _ & docs & Hps & Hperm & Hsorted & _); [vm_compute; reflexivity|].
  exists docs. split_and!; [|done..].
  assert (p_id <$> (http_projection <$> docs)
          = ["rel-3-a@x"; "rel-2-a@x"; "rel-1-a@x"]) as Hids
    by (rewrite <- Hps; vm_compute; reflexivity).
  by rewrite <- list_fmap_compose in Hids.
Defined.

Lemma recipient_opens_own_record_witness :
  (mark_opened clock_ms always_resolves (Some "a@x") (Some "rel-1-a@x") sample_world).2
  = MarkOpened (http_projection (open_notification (clock_ms 2) sample_record)).
Proof.
  assert (db sample_world = [sample_record]) as Hdb by (vm_compute; reflexivity).
  destruct (recipient_opens_own_record clock_ms always_resolves sample_world
              sample_record) as [Hr _];
    [unfold unique_ids; rewrite Hdb; apply NoDup_singleton
    |rewrite Hdb; by left|done|done|reflexivity|].
  exact Hr.
Defined.

Lemma opened_record_never_replayed_witness :
  let w := serve clock_ms never_throws always_resolves backlog boot in
  let opened_record :=
    open_notification (clock_ms 8)
      (userNotification (batch "rel-2" (Some "high") [target "a@x"]) (target "a@x")
         "a@x" (clock_ms 4) (clock_ms 5)) in
  let latest :=
    userNotification (batch "rel-3" (Some "low") [target "a@x"]) (target "a@x")
      "a@x" (clock_ms 6) (clock_ms 7) in
  p_id (sse_projection latest) ≠ notificationId opened_record.
Proof.
  intros w opened_record latest.
  apply (opened_record_never_replayed clock_ms never_throws always_resolves
           w opened_record [] (Some "a@x") 7%nat
           (get_events never_throws (Some "a@x") 7%nat w).1
           (drop (length (wire w))
              (wire (get_events never_throws (Some "a@x") 7%nat w).1))
           (sse_projection latest)).
  - unfold unique_ids. apply (bool_decide_unpack _). vm_compute. exact I.
  - apply (list_elem_of_lookup_2 _ 2). vm_compute. reflexivity.
  - reflexivity.
  - vm_compute. reflexivity.
  - vm_compute. reflexivity.
  - apply (list_elem_of_lookup_2 _ 1). vm_compute. reflexivity.
Defined.

Lemma health_counts_identities_witness :
  clients pair_world !! "a@x" = Some 1%nat
  ∧ h_connectedClients (health clock_ms pair_world).2 = 1%nat
  ∧ h_connectedClients
      (health clock_ms (get_events never_throws (Some "a@x") 2%nat pair_world).1).2
    = 1%nat.
Proof.
  destruct (health_counts_identities clock_ms never_throws "a@x" 1%nat boot pair_world)
    as [H1 H2]; [vm_compute; reflexivity|].
  destruct (health_counts_identities clock_ms never_throws "a@x" 2%nat pair_world
              (get_events never_throws (Some "a@x") 2%nat pair_world).1)
    as [_ H3]; [vm_compute; reflexivity|].
  split_and!; [exact H1|exact H2|].
  rewrite H3, H1. vm_compute. reflexivity.
Defined.

Lemma connect_then_close_witness :
  let w := (get_events_begin never_throws (Some "a@x") 1%nat boot).1 in
  clients (req_close 1%nat pair_world) !! "a@x" = None
  ∧ (∀ e, (1%nat, e) ∉ listeners (req_close 1%nat pair_world))
  ∧ ∀ e, e ≠ "a@x" → (1%nat, e) ∉ listeners w →
      clients (req_close 1%nat pair_world) !! e = clients w !! e.
Proof.
  intros w.
  apply (connect_then_close never_throws "a@x" 1%nat w pair_world).
  vm_compute. reflexivity.
Defined.

(** a@x connects on channel 1 and the connection closes before the
    replay query is answered: the registry keeps channel 1 for a@x. *)
Lemma close_during_query_keeps_entry_witness :
  let w1 := (get_events_begin never_throws (Some "a@x") 1%nat boot).1 in
  clients w1 !! "a@x" = Some 1%nat
  ∧ req_close 1%nat w1 = w1
  ∧ clients (get_events_resume never_throws "a@x" 1%nat (req_close 1%nat w1)).1 !! "a@x"
    = Some 1%nat.
Proof.
  intros w1.
  destruct (close_during_query_keeps_entry never_throws "a@x" 1%nat boot w1)
    as (Hreg & Hclose & Hstays);
    [reflexivity|intros e; apply not_elem_of_nil|].
  split_and!; [exact Hreg|exact Hclose|].
  eapply Hstays. apply surjective_pairing.
Defined.

Lemma failed_connect_leaves_entry_witness :
  let w' := (get_events throws_on_notifications (Some "a@x") 5%nat sample_world).1 in
  db w' = db sample_world
  ∧ listeners w' = []
  ∧ clients w' !! "a@x" = Some 5%nat
  ∧ clients (req_close 5%nat w') !! "a@x" = Some 5%nat.
Proof.
  intros w'.
  destruct (failed_connect_leaves_entry throws_on_notifications "a@x" 5%nat
              sample_world w')
    as (Hdb & Hl & _ & Hkept); [vm_compute; reflexivity|].
  destruct (Hkept eq_refl) as [Hc Hclose].
  split_and!; [exact Hdb|exact Hl|exact Hc|].
  apply Hclose. apply not_elem_of_nil.
Defined.


(** ** Live delivery and retries *)

Section Delivery.

Variable clock : nat → Z.
Variable write_throws : Channel → SseEvent → bool.


Lemma foldl_process_target_retry b ts : ∀ w r,
  (∀ t email, t ∈ ts → tu_email t = Some email →
     derive_notificationId (rb_notificationId b) (tu_userId t) email
     ∈ notificationId <$> db w) →
  db (foldl (process_target clock write_throws b) (w, r) ts).1 = db w
  ∧ wire (foldl (process_target clock write_throws b) (w, r) ts).1 = wire w
  ∧ success (foldl (process_target clock write_throws b) (w, r) ts).2 = success r.
Proof.
  induction ts as [|t ts IH]; intros w r Htaken; cbn [foldl]; [done|].
  assert (db (process_target clock write_throws b (w, r) t).1 = db w
          ∧ wire (process_target clock write_throws b (w, r) t).1 = wire w
          ∧ success (process_target clock write_throws b (w, r) t).2 = success r)
    as (Hd & Hw & Hs).
  { turn_cases Heq; try done.
    all: destruct Hfresh; apply (Htaken t email); [by left|done]. }
  destruct (process_target clock write_throws b (w, r) t) as [w1 r1].
  cbn [fst snd] in Hd, Hw, Hs.
  destruct (IH w1 r1) as (Hd' & Hw' & Hs').
  { intros t' email' Hin Hem. rewrite Hd. apply Htaken; [by right|done]. }
  by rewrite Hd', Hw', Hs', Hd, Hw, Hs.
Qed.

(** A retried batch stores and pushes nothing.  When the record ids of
    all the targets of a batch that have an identity are in the collection
    already, the handler adds no document, writes on no channel and
    reports nobody as delivered. *)
Theorem retried_batch_no_effect b w :
  (∀ t email, t ∈ targets_of b → tu_email t = Some email →
     derive_notificationId (rb_notificationId b) (tu_userId t) email
     ∈ notificationId <$> db w) →
  db (receive clock write_throws b w).1 = db w
  ∧ wire (receive clock write_throws b w).1 = wire w
  ∧ ∀ k r, (receive clock write_throws b w).2 = Receive200 k r →
           success r = [] ∧ k = 0%nat ∧ length (failed r) = length (targets_of b).
Proof.
  intros Htaken.
  assert (db (receive clock write_throws b w).1 = db w
          ∧ wire (receive clock write_throws b w).1 = wire w) as [Hdb Hwire].
  { destruct (receive_world clock write_throws b w) as (ts & rest & r0 & Hts & ->).
    destruct (foldl_process_target_retry b ts w r0) as (Hd & Hw & _); [|done].
    intros t email Hin. apply Htaken. rewrite Hts. apply elem_of_app. by left. }
  split_and!; [done..|].
  intros k r Hans.
  destruct (receive clock write_throws b w) as [w' resp] eqn:Hr.
  cbn [snd] in Hans. subst resp.
  apply receive_200 in Hr as (ts & Hts & Hfold & ->).
  assert (targets_of b = ts) as Htargets
    by (unfold targets_of; rewrite Hts; apply omap_id_Some).
  rewrite Htargets in *.
  destruct (foldl_process_target_retry b ts w
              (mkResults [] [] (length ts)) Htaken) as (_ & _ & Hs).
  destruct (foldl_process_target_entries clock write_throws b ts w
              (mkResults [] [] (length ts)))
    as (os & Hos & Hs' & Hf & _).
  rewrite Hfold in Hs, Hs', Hf. cbn [fst snd success failed app] in *.
  split_and!; [done|by rewrite Hs|].
  pose proof (outcome_split_length os) as Hlen.
  rewrite <- Hs', <- Hf, Hs in Hlen. cbn in Hlen.
  rewrite Hlen. symmetry. by eapply Forall2_length.
Qed.

End Delivery.


Lemma retried_batch_no_effect_witness :
  let w := (receive clock_ms never_throws pair_batch pair_world).1 in
  db (receive clock_ms never_throws pair_batch w).1 = db w
  ∧ wire (receive clock_ms never_throws pair_batch w).1 = wire w.
Proof.
  intros w.
  destruct (retried_batch_no_effect clock_ms never_throws pair_batch w)
    as (Hd & Hw & _); [|by split].
  intros t email [->|[->|Hin%elem_of_nil]%elem_of_cons]%elem_of_cons Hem;
    [| |done]; cbn in Hem; injection Hem as <-.
  - apply (list_elem_of_lookup_2 _ 0). vm_compute. reflexivity.
  - apply (list_elem_of_lookup_2 _ 1). vm_compute. reflexivity.
Defined.
